(** * Team-wallet inference heuristic (heuristics.py)

    A shallow embedding of [normalize_address] and
    [infer_team_wallets_from_transfers], together with the fragment of
    pandas they use.  Python objects are values [value]; a DataFrame is
    a mutable object living in a store, so that [copy()] and column
    assignment keep their aliasing behaviour. *)

From Stdlib Require Import ZArith String Ascii List Sorted Permutation PrimFloat.
From stdpp Require Import base gmap strings pretty list.

Local Open Scope string_scope.
Local Open Scope list_scope.
Local Open Scope nat_scope.

(** ** Python values and exceptions *)

(** The cells of a ledger hold [None], a [str] or an [int]. *)
Inductive value :=
  | VNone
  | VStr (s : string)
  | VInt (z : Z).

#[global] Instance value_eq_dec : EqDecision value.
Proof. solve_decision. Defined.

Definition value_enc (v : value) : unit + (string + Z) :=
  match v with
  | VNone => inl ()
  | VStr s => inr (inl s)
  | VInt z => inr (inr z)
  end.

Definition value_dec (x : unit + (string + Z)) : value :=
  match x with
  | inl _ => VNone
  | inr (inl s) => VStr s
  | inr (inr z) => VInt z
  end.

#[global] Instance value_countable : Countable value.
Proof. apply (inj_countable' value_enc value_dec). by intros []. Defined.

(** Exceptions the modelled code can raise.  [ReferenceError] stands for
    the use of a reference that names no object; Python programs cannot
    produce one, it only totalises the store model. *)
Inductive exn :=
  | KeyError (k : string)
  | AttributeError
  | TypeError
  | ReferenceError.

Inductive result (A : Type) :=
  | Ok (a : A)
  | Raise (e : exn).
Arguments Ok {A} a.
Arguments Raise {A} e.

Definition result_bind {A B} (r : result A) (k : A → result B) : result B :=
  match r with
  | Ok a => k a
  | Raise e => Raise e
  end.

Definition result_map {A B} (f : A → B) (r : result A) : result B :=
  result_bind r (λ a, Ok (f a)).

(** Truth value of an object: [None], [""] and [0] are falsy. *)
Definition truthy (v : value) : bool :=
  match v with
  | VNone => false
  | VStr s => negb (String.eqb s "")
  | VInt z => negb (Z.eqb z 0)
  end.

(** [a or b] *)
Definition py_or (a b : value) : value := if truthy a then a else b.

(** ** [str.lower] on ASCII text

    Addresses are ASCII text; on such text [str.lower] folds the letters
    [A]..[Z] and leaves every other character alone.  Characters above
    127 are left alone by the model. *)

Definition is_upper (c : ascii) : bool :=
  (65 <=? nat_of_ascii c)%nat && (nat_of_ascii c <=? 90)%nat.

Definition lower_ascii (c : ascii) : ascii :=
  if is_upper c then ascii_of_nat (nat_of_ascii c + 32) else c.

Fixpoint lower (s : string) : string :=
  match s with
  | EmptyString => EmptyString
  | String c s' => String (lower_ascii c) (lower s')
  end.

(** [v.lower()]: only a [str] has the method. *)
Definition str_lower (v : value) : result value :=
  match v with
  | VStr s => Ok (VStr (lower s))
  | _ => Raise AttributeError
  end.

(** heuristics.py, [normalize_address]: [(addr or "").lower()] *)
Definition normalize_address (addr : value) : result value :=
  str_lower (py_or addr (VStr "")).

(** ** Series and DataFrames *)

Abbreviation Series := (list value).

(** A DataFrame is its ordered columns; all columns of a frame have the
    same length.  The columns are object columns, in which a [None]
    stays [None].  Row labels are never read by the modelled code and
    are not represented. *)
Record DataFrame := mkDataFrame { columns : list (string * Series) }.

(** [pd.DataFrame()] *)
Definition empty_frame : DataFrame := mkDataFrame [].

Fixpoint assoc_get (name : string) (cols : list (string * Series)) : option Series :=
  match cols with
  | [] => None
  | (n, s) :: rest => if String.eqb n name then Some s else assoc_get name rest
  end.

Fixpoint assoc_set (name : string) (s : Series) (cols : list (string * Series))
  : list (string * Series) :=
  match cols with
  | [] => [(name, s)]
  | (n, s0) :: rest =>
      if String.eqb n name then (n, s) :: rest else (n, s0) :: assoc_set name s rest
  end.

(** [df[name]] *)
Definition frame_getitem (name : string) (df : DataFrame) : result Series :=
  match assoc_get name (columns df) with
  | Some s => Ok s
  | None => Raise (KeyError name)
  end.

(** [df[name] = s]: replaces the column, or appends it as the last one. *)
Definition frame_setitem (name : string) (s : Series) (df : DataFrame) : DataFrame :=
  mkDataFrame (assoc_set name s (columns df)).

(** [s.map(f)]: [f] is applied to the cells in order; the first
    exception it raises propagates. *)
Fixpoint series_map (f : value → result value) (s : Series) : result Series :=
  match s with
  | [] => Ok []
  | v :: rest =>
      result_bind (f v) (λ w,
      result_bind (series_map f rest) (λ ws, Ok (w :: ws)))
  end.

(** [s == v] *)
Definition series_eq (s : Series) (v : value) : list bool :=
  map (λ x, bool_decide (x = v)) s.

(** Selection of the positions a boolean mask marks [True].  A mask is
    always computed from a column of the frame it is applied to. *)
Fixpoint select_mask {A} (mask : list bool) (l : list A) : list A :=
  match mask, l with
  | b :: mask', x :: l' =>
      if b then x :: select_mask mask' l' else select_mask mask' l'
  | _, _ => []
  end.

Definition isna (v : value) : bool :=
  match v with
  | VNone => true
  | _ => false
  end.

(** [s.dropna()] *)
Definition dropna (s : Series) : Series := filter (λ v, isna v = false) s.

(** [s.tolist()] *)
Definition tolist (s : Series) : list value := s.

(** [s.isin(values)] *)
Definition isin (s : Series) (values : gset value) : list bool :=
  map (λ x, bool_decide (x ∈ values)) s.

(** [df[mask]] *)
Definition frame_getitem_mask (mask : list bool) (df : DataFrame) : DataFrame :=
  mkDataFrame (map (λ c, (c.1, select_mask mask c.2)) (columns df)).

(** [df[[n1, ..., nk]]] *)
Fixpoint select_columns (names : list string) (df : DataFrame)
  : result (list (string * Series)) :=
  match names with
  | [] => Ok []
  | n :: rest =>
      result_bind (frame_getitem n df) (λ s,
      result_bind (select_columns rest df) (λ cs, Ok ((n, s) :: cs)))
  end.

Definition frame_getitem_cols (names : list string) (df : DataFrame) : result DataFrame :=
  result_map mkDataFrame (select_columns names df).

(** [set.update(iterable)] and [set.discard(x)] *)
Definition set_update (s : gset value) (l : list value) : gset value :=
  s ∪ list_to_set l.

Definition set_discard (s : gset value) (x : value) : gset value :=
  s ∖ {[ x ]}.

(** ** [sort_values]

    The source calls [sort_values("block_signed_at")] with the default
    [kind="quicksort"] and [na_position="last"].  pandas promises for
    that kind a reordering of the rows in which the keys ascend and the
    missing keys come last; only the kinds [mergesort] and [stable]
    promise more.  The sorting algorithm is therefore an interface: the
    position list it computes is a permutation of the row positions that
    puts comparable keys in ascending order. *)

(** Order on sort keys: strings by code point, integers by value,
    missing keys last. *)
Definition key_le (a b : value) : Prop :=
  match a, b with
  | _, VNone => True
  | VNone, _ => False
  | VStr x, VStr y => String.leb x y = true
  | VInt x, VInt y => (x <= y)%Z
  | _, _ => False
  end.

Definition is_str_key (v : value) : bool :=
  match v with
  | VInt _ => false
  | _ => true
  end.

Definition is_int_key (v : value) : bool :=
  match v with
  | VStr _ => false
  | _ => true
  end.

(** Comparing a [str] with an [int] raises [TypeError]. *)
Definition comparable_keys (ks : list value) : bool :=
  forallb is_str_key ks || forallb is_int_key ks.

(** [take]: the rows at the given positions, in that order. *)
Definition gather {A} (idx : list nat) (l : list A) : list A :=
  omap (λ i, l !! i) idx.

Class SortKind := {
  argsort : list value → list nat;
  argsort_perm : ∀ ks, Permutation (argsort ks) (seq 0 (length ks));
  argsort_sorted : ∀ ks,
    comparable_keys ks = true → Sorted key_le (gather (argsort ks) ks)
}.

(** [df.sort_values(by)] *)
Definition frame_sort_values `{SortKind} (by_ : string) (df : DataFrame)
  : result DataFrame :=
  result_bind (frame_getitem by_ df) (λ k,
    if comparable_keys k
    then Ok (mkDataFrame (map (λ c, (c.1, gather (argsort k) c.2)) (columns df)))
    else Raise TypeError).

(** ** The object store

    DataFrames are mutable objects referred to by location.  A
    computation threads the store and may raise; the store survives an
    exception. *)

Definition loc := positive.
Abbreviation heap := (gmap loc DataFrame).

Definition M (A : Type) : Type := heap → result A * heap.

Definition run {A} (m : M A) (h : heap) : result A * heap := m h.

Definition ret {A} (a : A) : M A := λ h, (Ok a, h).

Definition bind {A B} (m : M A) (k : A → M B) : M B :=
  λ h, match m h with
       | (Ok a, h') => k a h'
       | (Raise e, h') => (Raise e, h')
       end.

Definition lift {A} (r : result A) : M A := λ h, (r, h).

Notation "'let*' x ':=' m 'in' k" := (bind m (λ x, k))
  (at level 10, x name, m at level 100, k at level 200, only parsing).

Definition alloc (df : DataFrame) : M loc :=
  λ h, let l := fresh (dom h) in (Ok l, <[l := df]> h).

Definition deref (l : loc) : M DataFrame :=
  λ h, match h !! l with
       | Some df => (Ok df, h)
       | None => (Raise ReferenceError, h)
       end.

Definition assign (l : loc) (df : DataFrame) : M unit :=
  λ h, (Ok tt, <[l := df]> h).

(** [df.copy()]: a new object with the same contents. *)
Definition df_copy (l : loc) : M loc :=
  let* df := deref l in alloc df.

(** [df[name]] *)
Definition df_getitem (l : loc) (name : string) : M Series :=
  let* df := deref l in lift (frame_getitem name df).

(** [df[name] = s]: mutates the object at [l]. *)
Definition df_setitem (l : loc) (name : string) (s : Series) : M unit :=
  let* df := deref l in assign l (frame_setitem name s df).

(** [df.loc[mask, name]] *)
Definition df_loc (l : loc) (mask : list bool) (name : string) : M Series :=
  let* s := df_getitem l name in ret (select_mask mask s).

(** [df[mask]]: a new object. *)
Definition df_getitem_mask (l : loc) (mask : list bool) : M loc :=
  let* df := deref l in alloc (frame_getitem_mask mask df).

(** [df[[n1, ..., nk]]]: a new object. *)
Definition df_getitem_cols (l : loc) (names : list string) : M loc :=
  let* df := deref l in
  let* df' := lift (frame_getitem_cols names df) in
  alloc df'.

(** [df.sort_values(by)]: a new object. *)
Definition df_sort_values `{SortKind} (l : loc) (by_ : string) : M loc :=
  let* df := deref l in
  let* df' := lift (frame_sort_values by_ df) in
  alloc df'.

(** ** heuristics.py, [infer_team_wallets_from_transfers] *)

Definition zero_address : string := "0x0000000000000000000000000000000000000000".

Definition infer_team_wallets_from_transfers `{SortKind}
    (transfers_df : loc) (token_contract creator_addr : value)
  : M (gset value * loc) :=
  let* df := df_copy transfers_df in
  let* col := df_getitem df "from" in
  let* from_n := lift (series_map normalize_address col) in
  let* _ := df_setitem df "from_n" from_n in
  let* col := df_getitem df "to" in
  let* to_n := lift (series_map normalize_address col) in
  let* _ := df_setitem df "to_n" to_n in
  let* creator_n := (if truthy creator_addr
                     then lift (normalize_address creator_addr)
                     else ret VNone) in
  let* token_n := lift (normalize_address token_contract) in
  let team_like : gset value := ∅ in
  let* team_like := (if truthy creator_n
                     then
                       let* col := df_getitem df "from_n" in
                       let* sel := df_loc df (series_eq col creator_n) "to_n" in
                       ret (set_update team_like (tolist (dropna sel)))
                     else ret team_like) in
  let* col := df_getitem df "from_n" in
  let* sel := df_loc df (series_eq col token_n) "to_n" in
  let team_like := set_update team_like (tolist (dropna sel)) in
  let team_like := set_discard team_like (VStr zero_address) in
  let* col := df_getitem df "to_n" in
  let* out := df_getitem_mask df (isin col team_like) in
  let* out := df_copy out in
  let* out := df_getitem_cols out
                ["block_signed_at"; "tx_hash"; "from"; "to"; "value_raw"] in
  let* out := df_sort_values out "block_signed_at" in
  ret (team_like, out).

(** What the caller observes of a call: the returned set and the
    contents of the returned frame, or the exception. *)
Definition call `{SortKind} (h : heap) (transfers_df : loc)
    (token_contract creator_addr : value) : result (gset value * DataFrame) :=
  fst (run (let* r := infer_team_wallets_from_transfers
                        transfers_df token_contract creator_addr in
            let* out := deref r.2 in
            ret (r.1, out)) h).

(** ** Ledgers of transfer records

    providers.py builds the ledger with [pd.DataFrame(rows)], every row a
    dict with the keys [block_signed_at], [tx_hash], [from], [to] and
    [value_raw]; any of the values may be [None]. *)

Record Transfer := mkTransfer {
  block_signed_at : option string;
  tx_hash : option string;
  from : option string;
  to : option string;
  value_raw : option Z
}.

#[global] Instance Transfer_eq_dec : EqDecision Transfer.
Proof. solve_decision. Defined.

Definition py_str (o : option string) : value :=
  match o with
  | Some s => VStr s
  | None => VNone
  end.

Definition py_int (o : option Z) : value :=
  match o with
  | Some z => VInt z
  | None => VNone
  end.

(** The frame with the five ledger columns, one row per record. *)
Definition ledger_frame (rows : list Transfer) : DataFrame :=
  mkDataFrame
    [ ("block_signed_at", map (λ r, py_str (block_signed_at r)) rows);
      ("tx_hash", map (λ r, py_str (tx_hash r)) rows);
      ("from", map (λ r, py_str (from r)) rows);
      ("to", map (λ r, py_str (to r)) rows);
      ("value_raw", map (λ r, py_int (value_raw r)) rows) ].

(** [pd.DataFrame(rows) if rows else pd.DataFrame()] (providers.py): an
    empty list of rows gives a frame without columns. *)
Definition pd_DataFrame (rows : list Transfer) : DataFrame :=
  match rows with
  | [] => empty_frame
  | _ => ledger_frame rows
  end.

(** ** Two sorting algorithms that meet the interface

    Both are insertion sorts over the positions paired with their keys.
    [stable_kind] places a row before the rows with an equal key that
    follow it in the input; [reversing_kind] places it behind them. *)

Definition key_leb (a b : value) : bool :=
  match a, b with
  | _, VNone => true
  | VNone, _ => false
  | VStr x, VStr y => String.leb x y
  | VInt x, VInt y => (x <=? y)%Z
  | _, _ => false
  end.

Definition key_ltb (a b : value) : bool := negb (key_leb b a).

Section insertion.
Context {A : Type}.
Variable keyof : A → value.
Variable before : value → value → bool.

Fixpoint insert_by (x : A) (l : list A) : list A :=
  match l with
  | [] => [x]
  | y :: t =>
      if before (keyof x) (keyof y) then x :: y :: t else y :: insert_by x t
  end.

Definition isort_by (l : list A) : list A := foldr insert_by [] l.
End insertion.

Fixpoint enumerate {A} (n : nat) (l : list A) : list (nat * A) :=
  match l with
  | [] => []
  | x :: l' => (n, x) :: enumerate (S n) l'
  end.

Definition argsort_by (before : value → value → bool) (ks : list value)
  : list nat :=
  map fst (isort_by snd before (enumerate 0 ks)).

(** ** The function read on records

    The derived columns [from_n] and [to_n] of a record, the set the
    two matching rules build, and the rows of the evidence table. *)

Definition norm (o : option string) : string := lower (default "" o).
Definition from_n (r : Transfer) : string := norm (from r).
Definition to_n (r : Transfer) : string := norm (to r).
Definition key (r : Transfer) : value := py_str (block_signed_at r).

(** The [to_n] cells of the records whose [from_n] cell equals [a]. *)
Definition received_from (a : value) (rows : list Transfer) : list value :=
  map (λ r, VStr (to_n r)) (filter (λ r, VStr (from_n r) = a) rows).

Definition team_of (rows : list Transfer) (token_n creator_n : value) : gset value :=
  set_discard
    (set_update
       (if truthy creator_n then set_update ∅ (received_from creator_n rows) else ∅)
       (received_from token_n rows))
    (VStr zero_address).

(** The value bound to [creator_n] for a creator of type [str | None]. *)
Definition creator_key (creator : option string) : value :=
  if truthy (py_str creator) then VStr (norm creator) else VNone.

Definition selected (rows : list Transfer) (team : gset value) : list Transfer :=
  filter (λ r, VStr (to_n r) ∈ team) rows.

Definition sort_records `{SortKind} (recs : list Transfer) : list Transfer :=
  gather (argsort (map key recs)) recs.

(** What a caller observes of a run. *)
Definition observed (p : result (gset value * loc) * heap)
  : result (gset value * DataFrame) :=
  match p with
  | (Ok (team, lo), h') =>
      match h' !! lo with
      | Some out => Ok (team, out)
      | None => Raise ReferenceError
      end
  | (Raise e, _) => Raise e
  end.

(** ** A store-free reading of the function

    [infer_denotation] is what [infer_team_wallets_from_transfers]
    computes from the contents of the frame it is given; Lemma
    [call_denotation] below proves that the two agree. *)

Definition ledger_columns : list string :=
  ["block_signed_at"; "tx_hash"; "from"; "to"; "value_raw"].

Definition infer_denotation `{SortKind}
    (df0 : DataFrame) (token_contract creator_addr : value)
  : result (gset value * DataFrame) :=
  result_bind (frame_getitem "from" df0) (λ col,
  result_bind (series_map normalize_address col) (λ from_n,
  let df1 := frame_setitem "from_n" from_n df0 in
  result_bind (frame_getitem "to" df1) (λ col,
  result_bind (series_map normalize_address col) (λ to_n,
  let df2 := frame_setitem "to_n" to_n df1 in
  result_bind (if truthy creator_addr
               then normalize_address creator_addr
               else Ok VNone) (λ creator_n,
  result_bind (normalize_address token_contract) (λ token_n,
  result_bind (if truthy creator_n
               then
                 result_bind (frame_getitem "from_n" df2) (λ col,
                 result_bind (frame_getitem "to_n" df2) (λ s,
                 Ok (set_update ∅
                       (tolist (dropna (select_mask (series_eq col creator_n) s))))))
               else Ok ∅) (λ team_like,
  result_bind (frame_getitem "from_n" df2) (λ col,
  result_bind (frame_getitem "to_n" df2) (λ s,
  let team_like :=
    set_discard
      (set_update team_like
         (tolist (dropna (select_mask (series_eq col token_n) s))))
      (VStr zero_address) in
  result_bind (frame_getitem "to_n" df2) (λ col,
  let out := frame_getitem_mask (isin col team_like) df2 in
  result_bind (frame_getitem_cols ledger_columns out) (λ out,
  result_bind (frame_sort_values "block_signed_at" out) (λ out,
  Ok (team_like, out))))))))))))).

(** [before] decides the key order on the keys of one kind. *)
Definition decides_order (before : value → value → bool) (kind : value → bool) : Prop :=
  ∀ x y, kind x = true → kind y = true →
    (before x y = true → key_le x y) ∧ (before x y = false → key_le y x).

(** ** Objects of the caller are left alone

    [keeps h0 m Q]: run in any store that extends [h0], the computation
    [m] leaves the objects of [h0] as they are, and its result
    satisfies [Q]. *)

Definition keeps {A} (h0 : heap) (m : M A) (Q : A → Prop) : Prop :=
  ∀ h, h0 ⊆ h → h0 ⊆ (run m h).2 ∧ ∀ a, (run m h).1 = Ok a → Q a.

Definition unused (h0 : heap) (l : loc) : Prop := h0 !! l = None.

(** ** Vocabulary of the claims *)

(** The order of two records by [block_signed_at]. *)
Definition key_order (a b : Transfer) : Prop := key_le (key a) (key b).

(** The normalized [to] addresses of the records that have a [to] and
    whose normalized [from] is the normalized token address. *)
Definition contract_recipients (rows : list Transfer) (token : string) : gset value :=
  list_to_set
    (omap (λ r, if decide (from_n r = lower token)
                then (λ a, VStr (lower a)) <$> to r
                else None) rows).

(** The evidence table as the claim describes it: the selected records,
    sorted by [block_signed_at] with ties in their input order. *)
Definition stable_sort_records (l : list Transfer) : list Transfer :=
  isort_by key key_leb l.

Definition evidence_as_claimed (rows : list Transfer) (team : gset value) : DataFrame :=
  ledger_frame (stable_sort_records (filter (λ r, VStr (to_n r) ∈ team) rows)).


(** A record with a timestamp, a hash and an amount of one unit. *)
Definition sample (ts hash : string) (f t : option string) : Transfer :=
  mkTransfer (Some ts) (Some hash) f t (Some 1%Z).

(** Twenty transfers of one block, all from the token contract to one
    wallet, told apart by their hash. *)
Definition tied_rows : list Transfer :=
  map (λ i, sample "2024-01-01T00:00:00Z" (String.append "0xh" (pretty i))
              (Some "0xT0KEN") (Some "0xW1"))
      (seq 0 20).

(** * More of the repository *)

(** A string in canonical form. *)
Definition canonical (v : value) : Prop := ∃ s, v = VStr s ∧ lower s = s.

(** * utils.py, [read_team_list] *)

(** [str.isspace] on ASCII: the characters 9 to 13 and 28 to 32. *)
Definition py_isspace (c : ascii) : bool :=
  let n := nat_of_ascii c in
  ((9 <=? n) && (n <=? 13)) || ((28 <=? n) && (n <=? 32)).

Fixpoint lstrip (s : string) : string :=
  match s with
  | EmptyString => EmptyString
  | String c s' => if py_isspace c then lstrip s' else s
  end.

Fixpoint rstrip (s : string) : string :=
  match s with
  | EmptyString => EmptyString
  | String c s' =>
      match rstrip s' with
      | EmptyString => if py_isspace c then EmptyString else String c EmptyString
      | r => String c r
      end
  end.

(** [s.strip()] *)
Definition strip (s : string) : string := rstrip (lstrip s).

(** utils.py, [read_team_list]: the loop over the lines the open file
    yields. *)
Fixpoint read_team_list (lines : list string) : list string :=
  match lines with
  | [] => []
  | line :: rest =>
      let s := strip line in
      if String.eqb s "" || String.prefix "#" s
      then read_team_list rest
      else s :: read_team_list rest
  end.

(** An entry of a team list: stripped, not empty, not a comment. *)
Definition is_entry (s : string) : Prop :=
  s ≠ "" ∧ strip s = s ∧ String.prefix "#" s = false.

#[global] Instance is_entry_dec s : Decision (is_entry s).
Proof. unfold is_entry. apply _. Defined.

(** The line end. *)
Definition newline : string := String (ascii_of_nat 10) EmptyString.

(** * main.py: how [main] uses the functions above *)


(** [df.empty]: no column, or no row. *)
Definition frame_empty (df : DataFrame) : bool :=
  match columns df with
  | [] => true
  | (_, []) :: _ => true
  | _ => false
  end.

(** main.py, lines 119 to 129, given what
    [fetch_token_transfers_covalent] returned. *)
Definition early_transfers `{SortKind}
    (transfers_df : option loc) (token creator_addr : value)
  : M (gset value * loc) :=
  let* early_transfers_df := alloc empty_frame in
  let inferred_team_addrs : gset value := ∅ in
  match transfers_df with
  | None => ret (inferred_team_addrs, early_transfers_df)
  | Some l =>
      let* df := deref l in
      if negb (frame_empty df)
      then infer_team_wallets_from_transfers l token creator_addr
      else ret (inferred_team_addrs, early_transfers_df)
  end.

(** [s.duplicated()] with [keep="first"]: a cell is marked when an equal
    cell comes before it. *)
Fixpoint duplicated_after (seen : list value) (s : Series) : list bool :=
  match s with
  | [] => []
  | v :: rest => bool_decide (v ∈ seen) :: duplicated_after (v :: seen) rest
  end.

(** [df.drop_duplicates(subset=[name])] *)
Definition frame_drop_duplicates (name : string) (df : DataFrame) : result DataFrame :=
  result_map
    (λ col, frame_getitem_mask (map negb (duplicated_after [] col)) df)
    (frame_getitem name df).

Definition df_drop_duplicates (l : loc) (name : string) : M loc :=
  let* df := deref l in
  let* df' := lift (frame_drop_duplicates name df) in
  alloc df'.

(** main.py, lines 112 and 113. *)
Definition normalize_holders (holders_df : loc) : M loc :=
  let* col := df_getitem holders_df "address" in
  let* address_n := lift (series_map normalize_address col) in
  let* _ := df_setitem holders_df "address_n" address_n in
  df_drop_duplicates holders_df "address_n".

(** * utils.py and providers.py: JSON plumbing *)

Module Json.

(** What [r.json()] returns: [None], a [bool], an [int], a [float], a
    [str], a [list], or a [dict] whose keys are strings. *)
#[warnings="-register-all"]
Inductive pyobj :=
  | PNone
  | PBool (b : bool)
  | PInt (z : Z)
  | PFloat (f : float)
  | PStr (s : string)
  | PList (l : list pyobj)
  | PDict (d : gmap string pyobj).

Inductive exc :=
  | AttributeError
  | TypeError
  | ValueError
  | OverflowError.

Inductive outcome (A : Type) :=
  | Returns (a : A)
  | Raises (e : exc).
Arguments Returns {A} a.
Arguments Raises {A} e.

Definition and_then {A B} (r : outcome A) (k : A → outcome B) : outcome B :=
  match r with
  | Returns a => k a
  | Raises e => Raises e
  end.

(** Truth value of an object. *)
Definition truthy (o : pyobj) : bool :=
  match o with
  | PNone => false
  | PBool b => b
  | PInt z => negb (Z.eqb z 0)
  | PFloat f => negb (PrimFloat.eqb f 0%float)
  | PStr s => negb (String.eqb s "")
  | PList l => match l with [] => false | _ => true end
  | PDict d => negb (Nat.eqb (size d) 0)
  end.

(** An element of a path: a string, or an integer as in
    [[0, "contract_metadata"]]. *)
Inductive pkey :=
  | KStr (s : string)
  | KInt (i : Z).

(** [isinstance(cur, dict) and p in cur], then [cur[p]]: the keys of a
    JSON object are strings, an integer is never among them. *)
Definition dict_step (cur : pyobj) (p : pkey) : option pyobj :=
  match cur, p with
  | PDict d, KStr k => d !! k
  | _, _ => None
  end.

(** utils.py, [safe_get] *)
Fixpoint safe_get (obj : pyobj) (path : list pkey) (dflt : pyobj) : pyobj :=
  match path with
  | [] => obj
  | p :: rest =>
      match dict_step obj p with
      | Some cur => safe_get cur rest dflt
      | None => dflt
      end
  end.

(** The parts of the built-in [int] that read text or round a float. *)
Class Builtins := {
  int_of_str : string → option Z;
  int_of_str16 : string → option Z;
  int_of_float : float → outcome Z
}.

(** [int(v)] *)
Definition py_int `{Builtins} (v : pyobj) : outcome Z :=
  match v with
  | PInt z => Returns z
  | PBool b => Returns (if b then 1 else 0)%Z
  | PFloat f => int_of_float f
  | PStr s =>
      match int_of_str s with
      | Some z => Returns z
      | None => Raises ValueError
      end
  | _ => Raises TypeError
  end.

(** [try: return int(v)] / [except Exception: return None] *)
Definition int_or_none `{Builtins} (v : pyobj) : pyobj :=
  match py_int v with
  | Returns z => PInt z
  | Raises _ => PNone
  end.

(** utils.py, [normalize_hex] *)
Definition normalize_hex `{Builtins} (v : pyobj) : outcome pyobj :=
  match v with
  | PNone => Returns PNone
  | PStr s =>
      if String.prefix "0x" s
      then match int_of_str16 s with
           | Some z => Returns (PInt z)
           | None => Raises ValueError
           end
      else Returns (int_or_none v)
  | PInt _ | PFloat _ | PBool _ => Returns (int_or_none v)
  | _ => Returns PNone
  end.

(** The value a path leads to, when every step finds its key. *)
Fixpoint descend (obj : pyobj) (path : list pkey) : option pyobj :=
  match path with
  | [] => Some obj
  | p :: rest =>
      match dict_step obj p with
      | Some cur => descend cur rest
      | None => None
      end
  end.

(** [o.get(k, dflt)]: only a [dict] has the method. *)
Definition py_get (o : pyobj) (k : string) (dflt : pyobj) : outcome pyobj :=
  match o with
  | PDict d => Returns (default dflt (d !! k))
  | _ => Raises AttributeError
  end.

(** [a or b] *)
Definition py_or (a b : pyobj) : pyobj := if truthy a then a else b.

(** [o is not None] *)
Definition is_not_none (o : pyobj) : bool :=
  match o with
  | PNone => false
  | _ => true
  end.

(** [o == s] for a string [s] *)
Definition eq_str (o : pyobj) (s : string) : bool :=
  match o with
  | PStr s' => String.eqb s' s
  | _ => false
  end.

(** providers.py, [fetch_total_supply], lines 30 to 39: what the Covalent
    branch does with the decoded response.  [Some] is the tuple it
    returns; [None] means that it falls through to the Ethplorer
    branch. *)
Definition covalent_supply `{Builtins} (data : pyobj)
  : outcome (option (Z * Z * pyobj * pyobj)) :=
  let items := safe_get data [KStr "data"; KStr "items"] (PList []) in
  if truthy items then
    let meta := safe_get items [KInt 0; KStr "contract_metadata"] (PDict ∅) in
    and_then (if truthy meta
              then and_then (py_get meta "total_supply" PNone) normalize_hex
              else Returns PNone) (λ sup,
    and_then (py_get meta "decimals" PNone) (λ dec,
    and_then (py_get meta "name" PNone) (λ name,
    let name := py_or name (PStr "") in
    and_then (py_get meta "symbol" PNone) (λ sym,
    let sym := py_or sym (PStr "") in
    if is_not_none sup && is_not_none dec then
      and_then (py_int sup) (λ s,
      and_then (py_int dec) (λ d,
      Returns (Some (s, d, name, sym))))
    else Returns None))))
  else Returns None.

(** A row of the ledger as providers.py builds it: a dict with five
    fixed keys. *)
Record row := mkRow {
  r_block_signed_at : pyobj;
  r_tx_hash : pyobj;
  r_from : pyobj;
  r_to : pyobj;
  r_value_raw : pyobj
}.

(** The one-character strings of a string. *)
Fixpoint chars (s : string) : list pyobj :=
  match s with
  | EmptyString => []
  | String c s' => PStr (String c EmptyString) :: chars s'
  end.

(** [for x in o]: a list yields its elements, a dict its keys, a string
    its characters; the other objects are not iterable. *)
Definition py_iter (o : pyobj) : outcome (list pyobj) :=
  match o with
  | PList l => Returns l
  | PDict d => Returns (map (λ kv, PStr kv.1) (map_to_list d))
  | PStr s => Returns (chars s)
  | _ => Raises TypeError
  end.

(** The body of the loop over the decoded parameters; the state is
    [(fr, to, val)]. *)
Definition param_step `{Builtins} (st : pyobj * pyobj * pyobj) (prm : pyobj)
  : outcome (pyobj * pyobj * pyobj) :=
  let '(fr, to, val) := st in
  and_then (py_get prm "name" PNone) (λ name,
  if eq_str name "from" then
    and_then (py_get prm "value" PNone) (λ v, Returns (v, to, val))
  else if eq_str name "to" then
    and_then (py_get prm "value" PNone) (λ v, Returns (fr, v, val))
  else if eq_str name "value" then
    and_then (py_get prm "value" PNone) (λ v, Returns (fr, to, int_or_none v))
  else Returns st).

Fixpoint for_each {S} (body : S → pyobj → outcome S) (st : S) (l : list pyobj)
  : outcome S :=
  match l with
  | [] => Returns st
  | x :: rest => and_then (body st x) (λ st', for_each body st' rest)
  end.

(** providers.py, [fetch_token_transfers_covalent], lines 146 to 169:
    the row built from one event. *)
Definition decode_event `{Builtins} (e : pyobj) : outcome row :=
  and_then (py_get e "decoded" (PDict ∅)) (λ decoded,
  and_then (py_get decoded "params" (PList [])) (λ dec,
  and_then (py_iter dec) (λ prms,
  and_then (for_each param_step (PNone, PNone, PNone) prms) (λ st,
  let '(fr, to, val) := st in
  and_then (py_get e "block_signed_at" PNone) (λ ts,
  and_then (py_get e "tx_hash" PNone) (λ hash,
  Returns (mkRow ts hash fr to val))))))).

(** The value of the last parameter of a given name, passed through
    [f]; [acc] when there is none. *)
Fixpoint last_value (f : pyobj → pyobj) (name : string)
    (prms : list (gmap string pyobj)) (acc : pyobj) : pyobj :=
  match prms with
  | [] => acc
  | p :: rest =>
      last_value f name rest
        (if eq_str (default PNone (p !! "name")) name
         then f (default PNone (p !! "value"))
         else acc)
  end.

(** Stand-in for the built-ins in examples that convert no text and no
    float. *)
Definition bare_builtins : Builtins := {|
  int_of_str := λ _, None;
  int_of_str16 := λ _, None;
  int_of_float := λ _, Raises OverflowError
|}.

End Json.

(** * Properties *)

(** ** The insertion sorts meet the interface *)

Lemma key_leb_le a b : key_leb a b = true ↔ key_le a b.
Proof.
  destruct a, b; simpl; try tauto; try (split; [discriminate | tauto]).
  apply Z.leb_le.
Qed.

Lemma key_leb_total_str a b :
  is_str_key a = true → is_str_key b = true → key_leb a b = false → key_le b a.
Proof.
  destruct a, b; simpl; try discriminate; try tauto.
  intros _ _ Hab. destruct (String.leb_total s s0) as [H | H]; congruence.
Qed.

Lemma key_leb_total_int a b :
  is_int_key a = true → is_int_key b = true → key_leb a b = false → key_le b a.
Proof.
  destruct a, b; simpl; try discriminate; try tauto.
  intros _ _ Hab. apply Z.leb_gt in Hab. lia.
Qed.

Lemma comparable_keys_kind ks :
  comparable_keys ks = true →
  Forall (λ k, is_str_key k = true) ks ∨ Forall (λ k, is_int_key k = true) ks.
Proof.
  unfold comparable_keys. intros H. apply orb_true_iff in H as [H | H];
    [left | right]; apply Forall_forall; intros x Hx;
    rewrite forallb_forall in H; apply H; by apply list_elem_of_In.
Qed.

Lemma enumerate_fst {A} (n : nat) (l : list A) :
  map fst (enumerate n l) = seq n (length l).
Proof.
  revert n. induction l as [| x l IH]; intros n; simpl; [done |].
  by rewrite IH.
Qed.

Lemma enumerate_snd {A} (n : nat) (l : list A) : map snd (enumerate n l) = l.
Proof.
  revert n. induction l as [| x l IH]; intros n; simpl; [done |].
  by rewrite IH.
Qed.

Lemma enumerate_lookup {A} (n : nat) (l : list A) :
  Forall (λ p, (n ≤ p.1)%nat ∧ l !! (p.1 - n)%nat = Some p.2) (enumerate n l).
Proof.
  revert n. induction l as [| x l IH]; intros n; simpl; constructor.
  - simpl. split; [lia |]. by replace (n - n) with 0 by lia.
  - eapply Forall_impl; [apply (IH (S n)) |].
    intros [i v] [Hle Hi]; simpl in *. split; [lia |].
    replace (i - n) with (S (i - S n)) by lia. done.
Qed.

Lemma enumerate_positions {A} (l : list A) :
  Forall (λ p, l !! p.1 = Some p.2) (enumerate 0 l).
Proof.
  eapply Forall_impl; [apply enumerate_lookup |].
  intros [i v] [_ Hi]; simpl in *. by replace (i - 0) with i in Hi by lia.
Qed.

Lemma enumerate_map {A B} (f : A → B) (n : nat) (l : list A) :
  enumerate n (map f l) = map (λ p, (p.1, f p.2)) (enumerate n l).
Proof.
  revert n. induction l as [| x l IH]; intros n; simpl; [done |].
  by rewrite IH.
Qed.

Lemma gather_pairs {A} (l : list A) (ps : list (nat * A)) :
  Forall (λ p, l !! p.1 = Some p.2) ps → gather (map fst ps) l = map snd ps.
Proof.
  induction 1 as [| [i v] ps Hp _ IH]; simpl; [done |].
  unfold gather in *. simpl in *. rewrite Hp. simpl. by rewrite IH.
Qed.

Section insertion_facts.
Context {A : Type}.
Variable keyof : A → value.
Variable before : value → value → bool.

Lemma insert_by_perm x l : Permutation (insert_by keyof before x l) (x :: l).
Proof.
  induction l as [| y t IH]; simpl; [done |].
  destruct (before (keyof x) (keyof y)); [done |].
  rewrite IH. apply perm_swap.
Qed.

Lemma isort_by_perm l : Permutation (isort_by keyof before l) l.
Proof.
  induction l as [| x t IH]; simpl; [done |].
  rewrite insert_by_perm. by constructor.
Qed.

Section sorted.
Variable P : value → Prop.
Hypothesis before_true : ∀ x y, P x → P y → before x y = true → key_le x y.
Hypothesis before_false : ∀ x y, P x → P y → before x y = false → key_le y x.

Lemma insert_by_sorted x l :
  P (keyof x) → Forall (λ y, P (keyof y)) l →
  Sorted key_le (map keyof l) →
  Sorted key_le (map keyof (insert_by keyof before x l)).
Proof.
  intros Hx Hl Hs. induction l as [| y t IH]; simpl.
  - repeat constructor.
  - inversion Hl as [| ? ? Hy Ht]; subst.
    simpl in Hs. apply Sorted_inv in Hs as [Hs Hhd].
    destruct (before (keyof x) (keyof y)) eqn:Hb; simpl.
    + constructor; [by constructor |]. constructor. by apply before_true.
    + constructor; [by apply IH |].
      destruct t as [| z t']; simpl.
      * constructor. by apply before_false.
      * destruct (before (keyof x) (keyof z)); simpl; constructor.
        -- by apply before_false.
        -- by inversion Hhd.
Qed.

Lemma isort_by_sorted l :
  Forall (λ y, P (keyof y)) l →
  Sorted key_le (map keyof (isort_by keyof before l)).
Proof.
  induction 1 as [| x t Hx Ht IH]; simpl; [constructor |].
  apply insert_by_sorted; [done | | done].
  eapply Permutation_Forall; [symmetry; apply isort_by_perm | done].
Qed.
End sorted.
End insertion_facts.

(** Insertion sort commutes with a map that keeps the keys. *)
Lemma isort_by_map {A B} (f : A → B) (keyA : A → value) (keyB : B → value)
    before (l : list A) :
  (∀ x, keyB (f x) = keyA x) →
  map f (isort_by keyA before l) = isort_by keyB before (map f l).
Proof.
  intros Hkey. induction l as [| x l IH]; simpl; [done |].
  rewrite <- IH. generalize (isort_by keyA before l) as s.
  induction s as [| y s IHs]; simpl; [done |].
  rewrite !Hkey. destruct (before (keyA x) (keyA y)); simpl; [done |].
  by rewrite IHs.
Qed.

Lemma argsort_by_perm before ks :
  Permutation (argsort_by before ks) (seq 0 (length ks)).
Proof.
  unfold argsort_by. rewrite <- (enumerate_fst 0 ks).
  apply Permutation_map, isort_by_perm.
Qed.

Lemma gather_argsort_by before ks :
  gather (argsort_by before ks) ks
  = map snd (isort_by snd before (enumerate 0 ks)).
Proof.
  unfold argsort_by. apply gather_pairs.
  eapply Permutation_Forall; [symmetry; apply isort_by_perm |].
  apply enumerate_positions.
Qed.

Lemma argsort_by_sorted before ks :
  decides_order before is_str_key →
  decides_order before is_int_key →
  comparable_keys ks = true →
  Sorted key_le (gather (argsort_by before ks) ks).
Proof.
  intros Hstr Hint Hc. rewrite gather_argsort_by.
  destruct (comparable_keys_kind ks Hc) as [Hk | Hk].
  - apply (isort_by_sorted snd before (λ k, is_str_key k = true)).
    + intros x y Hx Hy. by apply Hstr.
    + intros x y Hx Hy. by apply Hstr.
    + rewrite <- (enumerate_snd 0 ks) in Hk. by apply Forall_fmap in Hk.
  - apply (isort_by_sorted snd before (λ k, is_int_key k = true)).
    + intros x y Hx Hy. by apply Hint.
    + intros x y Hx Hy. by apply Hint.
    + rewrite <- (enumerate_snd 0 ks) in Hk. by apply Forall_fmap in Hk.
Qed.

Lemma key_leb_decides_str : decides_order key_leb is_str_key.
Proof.
  intros x y Hx Hy. split; [apply key_leb_le | by apply key_leb_total_str].
Qed.

Lemma key_leb_decides_int : decides_order key_leb is_int_key.
Proof.
  intros x y Hx Hy. split; [apply key_leb_le | by apply key_leb_total_int].
Qed.

Lemma key_ltb_decides_str : decides_order key_ltb is_str_key.
Proof.
  intros x y Hx Hy. unfold key_ltb. split; intros H.
  - apply negb_true_iff in H. by apply key_leb_total_str.
  - apply negb_false_iff in H. by apply key_leb_le.
Qed.

Lemma key_ltb_decides_int : decides_order key_ltb is_int_key.
Proof.
  intros x y Hx Hy. unfold key_ltb. split; intros H.
  - apply negb_true_iff in H. by apply key_leb_total_int.
  - apply negb_false_iff in H. by apply key_leb_le.
Qed.

(** Ties keep their input order. *)
Definition stable_kind : SortKind := {|
  argsort := argsort_by key_leb;
  argsort_perm := argsort_by_perm key_leb;
  argsort_sorted ks :=
    argsort_by_sorted key_leb ks key_leb_decides_str key_leb_decides_int
|}.

(** Ties come out in the reverse of their input order. *)
Definition reversing_kind : SortKind := {|
  argsort := argsort_by key_ltb;
  argsort_perm := argsort_by_perm key_ltb;
  argsort_sorted ks :=
    argsort_by_sorted key_ltb ks key_ltb_decides_str key_ltb_decides_int
|}.

(** ** Running the store operations *)

Lemma run_bind {A B} (m : M A) (k : A → M B) h :
  run (bind m k) h =
  match run m h with
  | (Ok a, h') => run (k a) h'
  | (Raise e, h') => (Raise e, h')
  end.
Proof. reflexivity. Qed.

Lemma run_ret {A} (a : A) h : run (ret a) h = (Ok a, h).
Proof. reflexivity. Qed.

Lemma run_lift {A} (r : result A) h : run (lift r) h = (r, h).
Proof. reflexivity. Qed.

Lemma run_alloc df h :
  run (alloc df) h = (Ok (fresh (dom h)), <[fresh (dom h) := df]> h).
Proof. reflexivity. Qed.

Lemma run_deref l df (h : heap) : h !! l = Some df → run (deref l) h = (Ok df, h).
Proof. intros Hl. unfold run, deref. by rewrite Hl. Qed.

Lemma run_deref_None l (h : heap) :
  h !! l = None → run (deref l) h = (Raise ReferenceError, h).
Proof. intros Hl. unfold run, deref. by rewrite Hl. Qed.

Section run_frame_ops.
Context `{SortKind} (h : heap) (l : loc) (df : DataFrame).
Hypothesis Hl : h !! l = Some df.

Lemma run_df_copy :
  run (df_copy l) h = (Ok (fresh (dom h)), <[fresh (dom h) := df]> h).
Proof. unfold df_copy. by rewrite run_bind, (run_deref l df). Qed.

Lemma run_df_getitem name :
  run (df_getitem l name) h = (frame_getitem name df, h).
Proof. unfold df_getitem. by rewrite run_bind, (run_deref l df). Qed.

Lemma run_df_setitem name s :
  run (df_setitem l name s) h = (Ok tt, <[l := frame_setitem name s df]> h).
Proof. unfold df_setitem. by rewrite run_bind, (run_deref l df). Qed.

Lemma run_df_loc mask name :
  run (df_loc l mask name) h =
  (result_map (select_mask mask) (frame_getitem name df), h).
Proof.
  unfold df_loc. rewrite run_bind, run_df_getitem.
  by destruct (frame_getitem name df).
Qed.

Lemma run_df_getitem_mask mask :
  run (df_getitem_mask l mask) h =
  (Ok (fresh (dom h)), <[fresh (dom h) := frame_getitem_mask mask df]> h).
Proof. unfold df_getitem_mask. by rewrite run_bind, (run_deref l df). Qed.

Lemma run_df_getitem_cols names :
  run (df_getitem_cols l names) h =
  match frame_getitem_cols names df with
  | Ok df' => (Ok (fresh (dom h)), <[fresh (dom h) := df']> h)
  | Raise e => (Raise e, h)
  end.
Proof.
  unfold df_getitem_cols. rewrite run_bind, (run_deref l df) by done.
  rewrite run_bind, run_lift. by destruct (frame_getitem_cols names df).
Qed.

Lemma run_df_sort_values by_ :
  run (df_sort_values l by_) h =
  match frame_sort_values by_ df with
  | Ok df' => (Ok (fresh (dom h)), <[fresh (dom h) := df']> h)
  | Raise e => (Raise e, h)
  end.
Proof.
  unfold df_sort_values. rewrite run_bind, (run_deref l df) by done.
  rewrite run_bind, run_lift. by destruct (frame_sort_values by_ df).
Qed.
End run_frame_ops.

Lemma run_infer `{SortKind} (h : heap) l df0 t c :
  h !! l = Some df0 →
  ∃ h', match infer_denotation df0 t c with
        | Ok (team, out) =>
            ∃ lo, run (infer_team_wallets_from_transfers l t c) h = (Ok (team, lo), h')
                  ∧ h' !! lo = Some out
        | Raise e => run (infer_team_wallets_from_transfers l t c) h = (Raise e, h')
        end.
Proof.
  intros Hl. unfold infer_team_wallets_from_transfers, infer_denotation.
  rewrite run_bind, (run_df_copy h l df0 Hl).
  set (d := fresh (dom h)). set (h1 := <[d := df0]> h).
  assert (H1 : h1 !! d = Some df0) by apply lookup_insert_eq.
  rewrite run_bind, (run_df_getitem h1 d df0 H1).
  destruct (frame_getitem "from" df0) as [col | e]; simpl; [| by eexists].
  rewrite run_bind, run_lift.
  destruct (series_map normalize_address col) as [from_n | e]; simpl; [| by eexists].
  rewrite run_bind, (run_df_setitem h1 d df0 H1).
  set (df1 := frame_setitem "from_n" from_n df0). set (h2 := <[d := df1]> h1).
  assert (H2 : h2 !! d = Some df1) by apply lookup_insert_eq.
  rewrite run_bind, (run_df_getitem h2 d df1 H2).
  destruct (frame_getitem "to" df1) as [col' | e]; simpl; [| by eexists].
  rewrite run_bind, run_lift.
  destruct (series_map normalize_address col') as [to_n | e]; simpl; [| by eexists].
  rewrite run_bind, (run_df_setitem h2 d df1 H2).
  set (df2 := frame_setitem "to_n" to_n df1). set (h3 := <[d := df2]> h2).
  assert (H3 : h3 !! d = Some df2) by apply lookup_insert_eq.
  rewrite run_bind.
  replace (run (if truthy c then lift (normalize_address c) else ret VNone) h3)
    with (if truthy c then normalize_address c else Ok VNone, h3)
    by (by destruct (truthy c)).
  destruct (if truthy c then normalize_address c else Ok VNone)
    as [creator_n | e]; simpl; [| by eexists].
  rewrite run_bind, run_lift.
  destruct (normalize_address t) as [token_n | e]; simpl; [| by eexists].
  rewrite run_bind.
  match goal with
  | |- context [run (if truthy creator_n then ?m else ret ?z) h3] =>
      replace (run (if truthy creator_n then m else ret z) h3)
        with (if truthy creator_n
              then
                result_bind (frame_getitem "from_n" df2) (λ col,
                result_bind (frame_getitem "to_n" df2) (λ s,
                Ok (set_update ∅
                      (tolist (dropna (select_mask (series_eq col creator_n) s))))))
              else Ok ∅, h3)
  end.
  2:{ destruct (truthy creator_n); [| done].
      rewrite run_bind, (run_df_getitem h3 d df2 H3).
      destruct (frame_getitem "from_n" df2); simpl; [| done].
      rewrite run_bind, (run_df_loc h3 d df2 H3).
      by destruct (frame_getitem "to_n" df2). }
  match goal with
  | |- context [result_bind (if truthy creator_n then ?a else ?b)] =>
      destruct (if truthy creator_n then a else b) as [team0 | e]
  end; simpl; [| by eexists].
  rewrite run_bind, (run_df_getitem h3 d df2 H3).
  destruct (frame_getitem "from_n" df2) as [fcol | e]; simpl; [| by eexists].
  rewrite run_bind, (run_df_loc h3 d df2 H3).
  destruct (frame_getitem "to_n" df2) as [tcol | e] eqn:Eto; simpl;
    [| by eexists].
  rewrite run_bind, (run_df_getitem h3 d df2 H3), Eto.
  set (team := set_discard _ _).
  rewrite run_bind, (run_df_getitem_mask h3 d df2 H3).
  set (o1 := fresh (dom h3)). set (df3 := frame_getitem_mask _ df2).
  set (h4 := <[o1 := df3]> h3).
  assert (H4 : h4 !! o1 = Some df3) by apply lookup_insert_eq.
  rewrite run_bind, (run_df_copy h4 o1 df3 H4).
  set (o2 := fresh (dom h4)). set (h5 := <[o2 := df3]> h4).
  assert (H5 : h5 !! o2 = Some df3) by apply lookup_insert_eq.
  rewrite run_bind, (run_df_getitem_cols h5 o2 df3 H5).
  fold ledger_columns.
  destruct (frame_getitem_cols ledger_columns df3) as [df4 | e]; simpl;
    [| by eexists].
  set (o3 := fresh (dom h5)). set (h6 := <[o3 := df4]> h5).
  assert (H6 : h6 !! o3 = Some df4) by apply lookup_insert_eq.
  rewrite run_bind, (run_df_sort_values h6 o3 df4 H6).
  destruct (frame_sort_values "block_signed_at" df4) as [df5 | e]; simpl;
    [| by eexists].
  rewrite run_ret. eexists _, _. split; [done |]. apply lookup_insert_eq.
Qed.

Lemma call_observed `{SortKind} h l t c :
  call h l t c = observed (run (infer_team_wallets_from_transfers l t c) h).
Proof.
  unfold call. rewrite run_bind.
  destruct (run (infer_team_wallets_from_transfers l t c) h) as [[[team lo] | e] h'];
    simpl; [| done].
  rewrite run_bind. unfold run at 1, deref.
  by destruct (h' !! lo).
Qed.

Lemma call_denotation `{SortKind} (h : heap) l df0 t c :
  h !! l = Some df0 → call h l t c = infer_denotation df0 t c.
Proof.
  intros Hl. rewrite call_observed.
  destruct (run_infer h l df0 t c Hl) as [h' Hrun].
  destruct (infer_denotation df0 t c) as [[team out] | e].
  - destruct Hrun as (lo & -> & Hlo). simpl. by rewrite Hlo.
  - by rewrite Hrun.
Qed.

Lemma call_unallocated `{SortKind} (h : heap) l t c :
  h !! l = None → call h l t c = Raise ReferenceError.
Proof.
  intros Hl. rewrite call_observed. unfold infer_team_wallets_from_transfers.
  rewrite run_bind. unfold df_copy. rewrite run_bind, (run_deref_None l h Hl). done.
Qed.

Section keeps_rules.
Context `{SortKind} (h0 : heap).

Lemma keeps_weaken {A} (m : M A) (Q R : A → Prop) :
  (∀ a, Q a → R a) → keeps h0 m Q → keeps h0 m R.
Proof. intros HQR Hm h Hh. destruct (Hm h Hh) as [? HQ]. eauto. Qed.

Lemma keeps_ret {A} (a : A) : keeps h0 (ret a) (λ _, True).
Proof. by intros h Hh. Qed.

Lemma keeps_lift {A} (r : result A) : keeps h0 (lift r) (λ _, True).
Proof. by intros h Hh. Qed.

Lemma keeps_bind {A B} (m : M A) (k : A → M B) (Q : A → Prop) (R : B → Prop) :
  keeps h0 m Q → (∀ a, Q a → keeps h0 (k a) R) → keeps h0 (bind m k) R.
Proof.
  intros Hm Hk h Hh. rewrite run_bind.
  destruct (Hm h Hh) as [Hsub HQ].
  destruct (run m h) as [[a | e] h']; simpl in *; [| by split].
  by apply (Hk a); [apply HQ |].
Qed.

Lemma keeps_if {A} (b : bool) (m1 m2 : M A) (Q : A → Prop) :
  keeps h0 m1 Q → keeps h0 m2 Q → keeps h0 (if b then m1 else m2) Q.
Proof. by destruct b. Qed.

Lemma keeps_deref l : keeps h0 (deref l) (λ _, True).
Proof. intros h Hh. unfold run, deref. by destruct (h !! l). Qed.

Lemma keeps_alloc df : keeps h0 (alloc df) (unused h0).
Proof.
  intros h Hh. rewrite run_alloc. simpl.
  assert (h !! fresh (dom h) = None) as Hfresh
    by (apply not_elem_of_dom, is_fresh).
  assert (unused h0 (fresh (dom h))) as Hun
    by (by eapply lookup_weaken_None).
  split; [| by intros a [= <-]].
  by apply insert_subseteq_r.
Qed.

Lemma keeps_assign l df : unused h0 l → keeps h0 (assign l df) (λ _, True).
Proof. intros Hl h Hh. split; [| done]. by apply insert_subseteq_r. Qed.

Lemma keeps_df_copy l : keeps h0 (df_copy l) (unused h0).
Proof.
  eapply keeps_bind; [apply keeps_deref |]. intros df _. apply keeps_alloc.
Qed.

Lemma keeps_df_getitem l name : keeps h0 (df_getitem l name) (λ _, True).
Proof.
  eapply keeps_bind; [apply keeps_deref |]. intros df _. apply keeps_lift.
Qed.

Lemma keeps_df_setitem l name s :
  unused h0 l → keeps h0 (df_setitem l name s) (λ _, True).
Proof.
  intros Hl. eapply keeps_bind; [apply keeps_deref |].
  intros df _. by apply keeps_assign.
Qed.

Lemma keeps_df_loc l mask name : keeps h0 (df_loc l mask name) (λ _, True).
Proof.
  eapply keeps_bind; [apply keeps_df_getitem |]. intros s _. apply keeps_ret.
Qed.

Lemma keeps_df_getitem_mask l mask :
  keeps h0 (df_getitem_mask l mask) (unused h0).
Proof.
  eapply keeps_bind; [apply keeps_deref |]. intros df _. apply keeps_alloc.
Qed.

Lemma keeps_df_getitem_cols l names :
  keeps h0 (df_getitem_cols l names) (unused h0).
Proof.
  eapply keeps_bind; [apply keeps_deref |]. intros df _.
  eapply keeps_bind; [apply keeps_lift |]. intros df' _. apply keeps_alloc.
Qed.

Lemma keeps_df_sort_values l by_ :
  keeps h0 (df_sort_values l by_) (unused h0).
Proof.
  eapply keeps_bind; [apply keeps_deref |]. intros df _.
  eapply keeps_bind; [apply keeps_lift |]. intros df' _. apply keeps_alloc.
Qed.

Lemma keeps_infer l t c :
  keeps h0 (infer_team_wallets_from_transfers l t c) (λ _, True).
Proof.
  unfold infer_team_wallets_from_transfers.
  eapply keeps_bind; [apply keeps_df_copy |]. intros df Hdf.
  eapply keeps_bind; [apply keeps_df_getitem |]. intros col _.
  eapply keeps_bind; [apply keeps_lift |]. intros from_n _.
  eapply keeps_bind; [by apply keeps_df_setitem |]. intros _ _.
  eapply keeps_bind; [apply keeps_df_getitem |]. intros col' _.
  eapply keeps_bind; [apply keeps_lift |]. intros to_n _.
  eapply keeps_bind; [by apply keeps_df_setitem |]. intros _ _.
  eapply keeps_bind; [apply keeps_if; [apply keeps_lift | apply keeps_ret] |].
  intros creator_n _.
  eapply keeps_bind; [apply keeps_lift |]. intros token_n _.
  eapply keeps_bind.
  { apply keeps_if; [| apply keeps_ret].
    eapply keeps_bind; [apply keeps_df_getitem |]. intros fcol _.
    eapply keeps_bind; [apply keeps_df_loc |]. intros sel _. apply keeps_ret. }
  intros team _.
  eapply keeps_bind; [apply keeps_df_getitem |]. intros fcol _.
  eapply keeps_bind; [apply keeps_df_loc |]. intros sel _.
  eapply keeps_bind; [apply keeps_df_getitem |]. intros tcol _.
  eapply keeps_bind; [apply keeps_df_getitem_mask |]. intros o1 _.
  eapply keeps_bind; [apply keeps_df_copy |]. intros o2 _.
  eapply keeps_bind; [apply keeps_df_getitem_cols |]. intros o3 _.
  eapply keeps_bind; [apply keeps_df_sort_values |]. intros o4 _.
  apply keeps_ret.
Qed.
End keeps_rules.

Lemma infer_store_extends `{SortKind} (h : heap) l t c :
  h ⊆ (run (infer_team_wallets_from_transfers l t c) h).2.
Proof. by apply (keeps_infer h l t c h). Qed.

Lemma infer_unallocated `{SortKind} (h : heap) l t c :
  h !! l = None →
  run (infer_team_wallets_from_transfers l t c) h = (Raise ReferenceError, h).
Proof.
  intros Hl. unfold infer_team_wallets_from_transfers, df_copy.
  by rewrite !run_bind, (run_deref_None l h Hl).
Qed.

Lemma infer_input_unchanged `{SortKind} (h : heap) l t c :
  (run (infer_team_wallets_from_transfers l t c) h).2 !! l = h !! l.
Proof.
  destruct (h !! l) as [df |] eqn:Hl.
  - eapply lookup_weaken; [done | apply infer_store_extends].
  - by rewrite infer_unallocated.
Qed.

(** ** The function on a ledger of records *)

Lemma normalize_address_str s : normalize_address (VStr s) = Ok (VStr (lower s)).
Proof. by destruct s. Qed.

Lemma normalize_address_py_str o : normalize_address (py_str o) = Ok (VStr (norm o)).
Proof. destruct o as [s |]; [apply normalize_address_str | done]. Qed.

Lemma series_map_normalize (f : Transfer → option string) rows :
  series_map normalize_address (map (λ r, py_str (f r)) rows)
  = Ok (map (λ r, VStr (norm (f r))) rows).
Proof.
  induction rows as [| r rows IH]; simpl; [done |].
  by rewrite normalize_address_py_str, IH.
Qed.

Lemma select_mask_filter {A B} (P : A → Prop) `{∀ x, Decision (P x)}
    (f : A → B) (l : list A) :
  select_mask (map (λ x, bool_decide (P x)) l) (map f l) = map f (filter P l).
Proof.
  induction l as [| x l IH]; [done |].
  cbn [map select_mask]. rewrite IH. rewrite (filter_cons P x l).
  case_bool_decide; by destruct (decide (P x)).
Qed.

Lemma dropna_strs {A} (g : A → string) (l : list A) :
  dropna (map (λ x, VStr (g x)) l) = map (λ x, VStr (g x)) l.
Proof.
  unfold dropna. induction l as [| x l IH]; [done |].
  cbn [map]. rewrite filter_cons, IH. by cbn [isna].
Qed.

Lemma gather_map {A B} (f : A → B) idx (l : list A) :
  gather idx (map f l) = map f (gather idx l).
Proof.
  unfold gather. induction idx as [| i idx IH]; [done |].
  cbn [omap list_omap]. rewrite IH, list_lookup_fmap. by destruct (l !! i).
Qed.

Lemma comparable_keys_strs (l : list Transfer) : comparable_keys (map key l) = true.
Proof.
  unfold comparable_keys. apply orb_true_iff. left.
  induction l as [| r l IH]; simpl; [done |].
  rewrite IH. unfold key. by destruct (block_signed_at r).
Qed.

Lemma creator_key_eq creator :
  (if truthy (py_str creator) then normalize_address (py_str creator) else Ok VNone)
  = Ok (creator_key creator).
Proof.
  unfold creator_key. destruct (truthy (py_str creator)); [| done].
  apply normalize_address_py_str.
Qed.

Lemma received_from_eq (a : value) rows :
  tolist (dropna (select_mask
    (series_eq (map (λ r, VStr (norm (from r))) rows) a)
    (map (λ r, VStr (norm (to r))) rows)))
  = received_from a rows.
Proof.
  unfold series_eq, tolist, received_from. rewrite map_map.
  rewrite (select_mask_filter (λ r, VStr (from_n r) = a) (λ r, VStr (to_n r))).
  apply (dropna_strs to_n).
Qed.

Lemma frame_getitem_mask_ledger (team : gset value) rows df2 :
  columns df2 =
    (columns (ledger_frame rows) ++
     [("from_n", map (λ r, VStr (norm (from r))) rows);
      ("to_n", map (λ r, VStr (norm (to r))) rows)])%list →
  frame_getitem_cols ledger_columns
    (frame_getitem_mask (isin (map (λ r, VStr (norm (to r))) rows) team) df2)
  = Ok (ledger_frame (selected rows team)).
Proof.
  intros Hcols. unfold frame_getitem_mask, isin. rewrite Hcols, map_map.
  cbn [ledger_frame columns app map fst snd].
  rewrite !(select_mask_filter (λ r, VStr (to_n r) ∈ team)).
  reflexivity.
Qed.

Lemma frame_sort_values_ledger `{SortKind} recs :
  frame_sort_values "block_signed_at" (ledger_frame recs)
  = Ok (ledger_frame (sort_records recs)).
Proof.
  unfold frame_sort_values.
  change (frame_getitem "block_signed_at" (ledger_frame recs))
    with (Ok (map key recs)).
  cbn [result_bind]. rewrite comparable_keys_strs.
  cbn [ledger_frame columns map fst snd]. rewrite !gather_map. reflexivity.
Qed.

Lemma infer_denotation_ledger `{SortKind} rows token creator :
  infer_denotation (ledger_frame rows) (VStr token) (py_str creator) =
  let team := team_of rows (VStr (lower token)) (creator_key creator) in
  Ok (team, ledger_frame (sort_records (selected rows team))).
Proof.
  unfold infer_denotation.
  change (frame_getitem "from" (ledger_frame rows))
    with (Ok (map (λ r, py_str (from r)) rows)).
  cbn [result_bind]. rewrite series_map_normalize. cbn [result_bind].
  change (frame_getitem "to" _) with (Ok (map (λ r, py_str (to r)) rows)).
  cbn [result_bind]. rewrite series_map_normalize. cbn [result_bind].
  rewrite creator_key_eq, normalize_address_str. cbn [result_bind].
  set (df2 := frame_setitem "to_n" _ _).
  change (frame_getitem "from_n" df2)
    with (Ok (map (λ r, VStr (norm (from r))) rows)).
  change (frame_getitem "to_n" df2)
    with (Ok (map (λ r, VStr (norm (to r))) rows)).
  cbn [result_bind]. rewrite !received_from_eq.
  replace (result_bind _ _) with 
    (Ok (team_of rows (VStr (lower token)) (creator_key creator),
         ledger_frame (sort_records (selected rows
           (team_of rows (VStr (lower token)) (creator_key creator)))))); [done |].
  unfold team_of. destruct (truthy (creator_key creator)); cbn [result_bind];
    rewrite (frame_getitem_mask_ledger _ rows df2) by reflexivity;
    cbn [result_bind]; rewrite frame_sort_values_ledger; reflexivity.
Qed.

(** ** Lower-casing *)



Lemma lower_ascii_other c : is_upper c = false → lower_ascii c = c.
Proof. unfold lower_ascii. by intros ->. Qed.


Lemma lower_empty s : lower s = "" ↔ s = "".
Proof. by destruct s. Qed.


(** ** Calls on a ledger *)

Lemma call_ledger `{SortKind} (h : heap) l rows token creator :
  call (<[l := ledger_frame rows]> h) l (VStr token) (py_str creator) =
  let team := team_of rows (VStr (lower token)) (creator_key creator) in
  Ok (team, ledger_frame (sort_records (selected rows team))).
Proof.
  rewrite (call_denotation _ l (ledger_frame rows)) by apply lookup_insert_eq.
  apply infer_denotation_ledger.
Qed.

Lemma elem_of_received_from v a rows :
  v ∈ received_from a rows ↔
  ∃ r, r ∈ rows ∧ VStr (from_n r) = a ∧ v = VStr (to_n r).
Proof.
  unfold received_from. rewrite list_elem_of_fmap. split.
  - intros (r & -> & Hr). apply list_elem_of_filter in Hr as [? ?]. eauto.
  - intros (r & Hr & Ha & ->). exists r. split; [done |].
    by apply list_elem_of_filter.
Qed.

Lemma elem_of_team_of v rows token_n creator_n :
  v ∈ team_of rows token_n creator_n ↔
  v ≠ VStr zero_address ∧
  ∃ r, r ∈ rows ∧ v = VStr (to_n r) ∧
       (VStr (from_n r) = token_n
        ∨ (truthy creator_n = true ∧ VStr (from_n r) = creator_n)).
Proof.
  unfold team_of, set_discard, set_update.
  rewrite elem_of_difference, elem_of_union, not_elem_of_singleton.
  rewrite (elem_of_list_to_set v (received_from token_n rows)).
  rewrite elem_of_received_from.
  destruct (truthy creator_n).
  - rewrite elem_of_union, elem_of_list_to_set, elem_of_received_from.
    rewrite elem_of_empty. split.
    + intros [[[[] | (r & ? & ? & ?)] | (r & ? & ? & ?)] ?]; eauto 10.
    + intros [? (r & ? & ? & [? | [_ ?]])]; eauto 10.
  - rewrite elem_of_empty. split.
    + intros [[[] | (r & ? & ? & ?)] ?]; eauto 10.
    + intros [? (r & ? & ? & [? | [? ?]])]; [eauto 10 | done].
Qed.

(** ** The sorted evidence rows *)

Lemma gather_suffix {A} (pre l : list A) :
  gather (seq (length pre) (length l)) (pre ++ l) = l.
Proof.
  unfold gather. revert pre. induction l as [| x l IH]; intros pre; [done |].
  cbn [length seq omap list_omap].
  rewrite list_lookup_middle by done.
  specialize (IH (pre ++ [x])).
  rewrite length_app, Nat.add_1_r, <- app_assoc in IH. simpl in IH.
  by rewrite IH.
Qed.

Lemma gather_all {A} (l : list A) : gather (seq 0 (length l)) l = l.
Proof. apply (gather_suffix [] l). Qed.

Lemma sort_records_perm `{SortKind} recs : sort_records recs ≡ₚ recs.
Proof.
  unfold sort_records, gather. rewrite argsort_perm, length_map.
  by rewrite <- (gather_all recs) at 2.
Qed.

Lemma Sorted_map_key recs :
  Sorted key_le (map key recs) → Sorted key_order recs.
Proof.
  induction recs as [| r recs IH]; simpl; intros Hs; [constructor |].
  apply Sorted_inv in Hs as [Hs Hhd]. constructor; [by apply IH |].
  destruct recs; simpl in *; constructor. by inversion Hhd.
Qed.

Lemma sort_records_sorted `{SortKind} recs : Sorted key_order (sort_records recs).
Proof.
  apply Sorted_map_key. unfold sort_records. rewrite <- gather_map.
  apply argsort_sorted, comparable_keys_strs.
Qed.

Lemma sort_records_singleton `{SortKind} r : sort_records [r] = [r].
Proof. apply Permutation_singleton_r, sort_records_perm. Qed.

Lemma sort_records_nil `{SortKind} : sort_records [] = [].
Proof. apply Permutation_nil_r, sort_records_perm. Qed.

(** With the stable algorithm the rows come out as an insertion sort of
    the records themselves leaves them. *)
Lemma sort_records_stable recs :
  sort_records (H := stable_kind) recs = stable_sort_records recs.
Proof.
  unfold sort_records, stable_sort_records. cbn [argsort stable_kind].
  unfold argsort_by. rewrite enumerate_map.
  rewrite <- (isort_by_map (λ p, (p.1, key p.2)) (λ p, key p.2) snd) by done.
  rewrite map_map. cbn [fst].
  rewrite (gather_pairs recs).
  - rewrite (isort_by_map snd (λ p, key p.2) key) by done.
    by rewrite enumerate_snd.
  - eapply Permutation_Forall; [symmetry; apply isort_by_perm |].
    apply enumerate_positions.
Qed.

(** Under a stable sort the evidence table is the one the specification
    describes. *)
Lemma evidence_stable_kind (h : heap) l rows token creator :
  ∃ team,
    call (H := stable_kind) (<[l := ledger_frame rows]> h) l
         (VStr token) (py_str creator)
    = Ok (team, evidence_as_claimed rows team).
Proof.
  rewrite call_ledger. cbn zeta. eexists. do 2 f_equal.
  unfold evidence_as_claimed. by rewrite sort_records_stable.
Qed.

(** ** The scenarios of the specification *)

Example scenario_A :
  call (H := stable_kind)
       {[ 1%positive := ledger_frame
            [sample "2024-01-01T00:00:00Z" "0xh1" (Some "0xCreator") (Some "0xW1")] ]}
       1%positive (VStr "0xt0ken") (VStr "0xCreator")
  = Ok ({[ VStr "0xw1" ]},
        ledger_frame
          [sample "2024-01-01T00:00:00Z" "0xh1" (Some "0xCreator") (Some "0xW1")]).
Proof. by vm_compute. Qed.

Example scenario_C :
  call (H := stable_kind)
       {[ 1%positive := ledger_frame
            [sample "2024-01-01T00:00:00Z" "0xh1" (Some "0xCreator")
                    (Some zero_address)] ]}
       1%positive (VStr "0xt0ken") (VStr "0xCreator")
  = Ok (∅, ledger_frame []).
Proof. by vm_compute. Qed.

(** * The claims *)

(** C1, as stated, fails: with a null creator and a single transfer from
    the token contract to the all-zero address, the returned set is
    empty, while the set of normalized [to] addresses of the records
    sent from the contract holds the all-zero address. *)
Lemma C1_zero_address_counterexample :
  let rows := [sample "2024-01-01T00:00:00Z" "0xh1" (Some "0xT0KEN") (Some zero_address)] in
  call (H := stable_kind) {[ 1%positive := ledger_frame rows ]} 1%positive
       (VStr "0xt0ken") VNone = Ok (∅, ledger_frame [])
  ∧ contract_recipients rows "0xt0ken" = {[ VStr zero_address ]}.
Proof.
  split; [by vm_compute |].
  apply (bool_decide_unpack _). by vm_compute.
Qed.

(** C1, amended: when the creator is null and every record sent from the
    token contract has a [to], the returned set is exactly the set of
    normalized [to] addresses of the records whose normalized [from] is
    the normalized token address, less the all-zero address. *)
Theorem C1_contract_rule `{SortKind} (h : heap) l rows token :
  Forall (λ r, from_n r = lower token → to r ≠ None) rows →
  ∃ ev,
    call (<[l := ledger_frame rows]> h) l (VStr token) VNone
    = Ok (contract_recipients rows token ∖ {[ VStr zero_address ]}, ev).
Proof.
  intros Hto. rewrite (call_ledger h l rows token None). cbn zeta.
  eexists. do 2 f_equal.
  unfold team_of, creator_key, set_discard, set_update. cbn [py_str truthy].
  f_equal. rewrite (left_id_L ∅ (∪)). unfold contract_recipients.
  apply set_eq. intros v. rewrite !elem_of_list_to_set.
  rewrite elem_of_received_from, list_elem_of_omap.
  rewrite Forall_forall in Hto. split.
  - intros (r & Hr & Hfrom & ->). exists r. split; [done |].
    injection Hfrom as Hfrom. rewrite decide_True by done.
    specialize (Hto r Hr Hfrom). unfold to_n, norm.
    by destruct (to r).
  - intros (r & Hr & Hv). exists r. split; [done |].
    destruct (decide (from_n r = lower token)) as [Hfrom |]; [| done].
    split; [by rewrite Hfrom |].
    unfold to_n, norm. destruct (to r); simpl in *; congruence.
Qed.

(** Scenario B of the specification: the contract sends to W2, W2 sends
    to W3, no creator. *)
Lemma C1_contract_rule_witness :
  let rows := [sample "2024-01-01T00:00:00Z" "0xh1" (Some "0xT0KEN") (Some "0xW2");
               sample "2024-01-01T00:05:00Z" "0xh2" (Some "0xW2") (Some "0xW3")] in
  Forall (λ r, from_n r = lower "0xt0ken" → to r ≠ None) rows
  ∧ ∃ ev,
      call (H := stable_kind) (<[1%positive := ledger_frame rows]> ∅) 1%positive
           (VStr "0xt0ken") VNone
      = Ok (contract_recipients rows "0xt0ken" ∖ {[ VStr zero_address ]}, ev).
Proof.
  intros rows.
  assert (Forall (λ r, from_n r = lower "0xt0ken" → to r ≠ None) rows) as Hrows
    by (repeat constructor; discriminate).
  split; [exact Hrows |].
  exact (C1_contract_rule (H := stable_kind) ∅ 1%positive rows "0xt0ken" Hrows).
Defined.

(** C2, as stated, fails: [reversing_kind] sorts as [kind="quicksort"]
    promises, and on twenty selected transfers of one block the evidence
    table lists them in the reverse of their input order, not in their
    input order. *)
Lemma C2_tie_order_counterexample :
  let team : gset value := {[ VStr "0xw1" ]} in
  call (H := reversing_kind) {[ 1%positive := ledger_frame tied_rows ]} 1%positive
       (VStr "0xt0ken") VNone = Ok (team, ledger_frame (rev tied_rows))
  ∧ evidence_as_claimed tied_rows team = ledger_frame tied_rows
  ∧ ledger_frame (rev tied_rows) ≠ ledger_frame tied_rows.
Proof. repeat split; by vm_compute. Qed.

(** C2, amended: whatever the sorting algorithm behind the default
    [kind], the evidence table has the columns [block_signed_at],
    [tx_hash], [from], [to], [value_raw] in that order; its rows are the
    ledger records whose normalized [to] is in the returned set, each as
    often as in the ledger; and they ascend by [block_signed_at], a null
    timestamp last.  The order of the records of one timestamp is left
    open. *)
Theorem C2_evidence_table `{SortKind} (h : heap) l rows token creator :
  ∃ team recs,
    call (<[l := ledger_frame rows]> h) l (VStr token) (py_str creator)
    = Ok (team, ledger_frame recs)
    ∧ map fst (columns (ledger_frame recs))
      = ["block_signed_at"; "tx_hash"; "from"; "to"; "value_raw"]
    ∧ recs ≡ₚ filter (λ r, VStr (to_n r) ∈ team) rows
    ∧ Sorted key_order recs.
Proof.
  rewrite call_ledger. cbn zeta. eexists _, _. split; [done |].
  split; [done |]. split; [apply sort_records_perm | apply sort_records_sorted].
Qed.

(** C3 fails on the code: a record with a null [to] sent by the creator,
    or by the token contract, puts the empty string in the returned set
    and is a row of the evidence table.  [normalize_address] has turned
    the null into [""] before [dropna] runs. *)
Theorem C3_null_to_is_matched `{SortKind} (h : heap) l :
  let r := sample "2024-01-01T00:00:00Z" "0xh1" (Some "0xCreator") None in
  call (<[l := ledger_frame [r]]> h) l (VStr "0xt0ken") (VStr "0xcreator")
  = Ok ({[ VStr "" ]}, ledger_frame [r])
  ∧ call (<[l := ledger_frame [r]]> h) l (VStr "0xCREATOR") VNone
  = Ok ({[ VStr "" ]}, ledger_frame [r]).
Proof.
  intros r. split.
  - rewrite (call_ledger h l [r] "0xt0ken" (Some "0xcreator")). cbn zeta.
    replace (team_of [r] _ _) with ({[ VStr "" ]} : gset value) by (by vm_compute).
    do 2 f_equal. replace (selected [r] _) with [r] by (by vm_compute).
    by rewrite sort_records_singleton.
  - rewrite (call_ledger h l [r] "0xCREATOR" None). cbn zeta.
    replace (team_of [r] _ _) with ({[ VStr "" ]} : gset value) by (by vm_compute).
    do 2 f_equal. replace (selected [r] _) with [r] by (by vm_compute).
    by rewrite sort_records_singleton.
Qed.

Lemma infer_denotation_no_zero `{SortKind} df t c team ev :
  infer_denotation df t c = Ok (team, ev) → VStr zero_address ∉ team.
Proof.
  unfold infer_denotation. intros Hd.
  repeat match type of Hd with
         | result_bind ?r _ = Ok _ =>
             destruct r; cbn [result_bind] in Hd; [| discriminate]
         end.
  injection Hd as <- _. unfold set_discard.
  rewrite elem_of_difference, elem_of_singleton. tauto.
Qed.

(** C4: on every ledger, token address and creator the call returns, and
    the returned set does not hold the all-zero address; nor does the
    set of any call that returns, whatever the frame and the arguments. *)
Theorem C4_zero_address_excluded `{SortKind} (h : heap) l :
  (∀ rows token creator, ∃ team ev,
     call (<[l := ledger_frame rows]> h) l (VStr token) (py_str creator)
     = Ok (team, ev) ∧ VStr zero_address ∉ team)
  ∧ (∀ t c, match call h l t c with
            | Ok (team, _) => VStr zero_address ∉ team
            | Raise _ => True
            end).
Proof.
  split.
  - intros rows token creator. rewrite call_ledger. cbn zeta.
    eexists _, _. split; [done |]. rewrite elem_of_team_of. tauto.
  - intros t c. destruct (h !! l) as [df |] eqn:Hl.
    + rewrite (call_denotation h l df t c Hl).
      destruct (infer_denotation df t c) as [[team ev] | e] eqn:Hd; [| done].
      by eapply infer_denotation_no_zero.
    + by rewrite call_unallocated.
Qed.







(** C7: a second invocation with the same arguments, run in the store
    the first one leaves, gives the caller the same outcome (the same
    set and a frame with the same rows in the same order, or the same
    exception), and leaves the objects of the first one alone. *)
Theorem C7_deterministic `{SortKind} (h : heap) l t c :
  let h' := (run (infer_team_wallets_from_transfers l t c) h).2 in
  call h' l t c = call h l t c
  ∧ h' ⊆ (run (infer_team_wallets_from_transfers l t c) h').2.
Proof.
  intros h'. split; [| apply infer_store_extends].
  assert (h' !! l = h !! l) as Hl by apply infer_input_unchanged.
  destruct (h !! l) as [df |] eqn:Hdf.
  - by rewrite (call_denotation h' l df), (call_denotation h l df).
  - by rewrite !call_unallocated.
Qed.

(** C8: every object of the store before the call, the ledger passed in
    among them, has the same contents after it; the call only adds new
    objects.  This holds also when the call raises. *)
Theorem C8_input_not_mutated `{SortKind} (h : heap) l t c :
  let h' := (run (infer_team_wallets_from_transfers l t c) h).2 in
  h ⊆ h' ∧ h' !! l = h !! l.
Proof. split; [apply infer_store_extends | apply infer_input_unchanged]. Qed.

(** C9, as stated, fails: on the empty ledger as providers.py builds it,
    a frame without columns, the call raises [KeyError]. *)
Lemma C9_empty_frame_counterexample :
  call (H := stable_kind) {[ 1%positive := pd_DataFrame [] ]} 1%positive
       (VStr "0xt0ken") VNone = Raise (KeyError "from").
Proof. by vm_compute. Qed.

(** C9, amended: on the empty ledger that has the five ledger columns
    the call returns the empty set and the empty evidence table, for
    every token address and every creator. *)
Theorem C9_empty_ledger `{SortKind} (h : heap) l token creator :
  call (<[l := ledger_frame []]> h) l (VStr token) (py_str creator)
  = Ok (∅, ledger_frame []).
Proof.
  rewrite call_ledger. cbn zeta.
  assert (team_of [] (VStr (lower token)) (creator_key creator) = ∅) as ->.
  { apply set_eq. intros v. rewrite elem_of_team_of, elem_of_empty.
    split; [| done]. intros [_ (r & Hr & _)]. by apply elem_of_nil in Hr. }
  unfold selected. by rewrite filter_nil, sort_records_nil.
Qed.

(** C10: with a falsy creator (the empty string, zero) the function runs
    exactly as with a null creator; every member of the returned set is
    then the normalized [to] of a record sent from the token contract. *)
Theorem C10_falsy_creator `{SortKind} (h : heap) l t c :
  truthy c = false →
  run (infer_team_wallets_from_transfers l t c) h
  = run (infer_team_wallets_from_transfers l t VNone) h
  ∧ ∀ rows token, ∃ team ev,
      call (<[l := ledger_frame rows]> h) l (VStr token) c = Ok (team, ev)
      ∧ ∀ v, v ∈ team →
          ∃ r, r ∈ rows ∧ from_n r = lower token ∧ v = VStr (to_n r).
Proof.
  intros Hc.
  assert (∀ h', run (infer_team_wallets_from_transfers l t c) h'
                = run (infer_team_wallets_from_transfers l t VNone) h') as Hrun.
  { intros h'. unfold infer_team_wallets_from_transfers. by rewrite Hc. }
  split; [apply Hrun |]. intros rows token.
  assert (call (<[l := ledger_frame rows]> h) l (VStr token) c
          = call (<[l := ledger_frame rows]> h) l (VStr token) (py_str None)) as ->.
  { rewrite !call_observed. unfold infer_team_wallets_from_transfers.
    by rewrite Hc. }
  rewrite call_ledger. cbn zeta. eexists _, _. split; [done |].
  intros v Hv. apply elem_of_team_of in Hv as [_ (r & Hr & -> & Hfrom)].
  exists r. split; [done |]. split; [| done].
  destruct Hfrom as [[= Hfrom] | [Hcr _]]; [done | discriminate].
Qed.

(** The empty string as creator. *)
Lemma C10_falsy_creator_witness :
  truthy (VStr "") = false
  ∧ (run (infer_team_wallets_from_transfers (H := stable_kind)
            1%positive (VStr "0xt0ken") (VStr "")) ∅
     = run (infer_team_wallets_from_transfers (H := stable_kind)
              1%positive (VStr "0xt0ken") VNone) ∅
     ∧ ∀ rows token, ∃ team ev,
         call (H := stable_kind) (<[1%positive := ledger_frame rows]> ∅) 1%positive
              (VStr token) (VStr "") = Ok (team, ev)
         ∧ ∀ v, v ∈ team →
             ∃ r, r ∈ rows ∧ from_n r = lower token ∧ v = VStr (to_n r)).
Proof.
  split; [reflexivity |].
  apply (C10_falsy_creator (H := stable_kind) ∅ 1%positive (VStr "0xt0ken") (VStr "")).
  reflexivity.
Defined.

(** * Further properties of heuristics.py *)

Lemma lower_ascii_not_upper c : is_upper (lower_ascii c) = false.
Proof.
  unfold lower_ascii. destruct (is_upper c) eqn:Hc; [| done].
  unfold is_upper in *. apply andb_true_iff in Hc as [H1 H2].
  apply Nat.leb_le in H1, H2.
  rewrite nat_ascii_embedding by lia.
  apply andb_false_iff. right. apply Nat.leb_gt. lia.
Qed.

Lemma lower_ascii_idem c : lower_ascii (lower_ascii c) = lower_ascii c.
Proof. apply lower_ascii_other, lower_ascii_not_upper. Qed.

Lemma lower_idem s : lower (lower s) = lower s.
Proof. induction s as [| c s IH]; simpl; [done |]. by rewrite lower_ascii_idem, IH. Qed.

Lemma lower_no_upper s :
  Forall (λ c, is_upper c = false) (list_ascii_of_string (lower s)).
Proof.
  induction s as [| c s IH]; simpl; constructor; [apply lower_ascii_not_upper | done].
Qed.

Lemma normalize_address_Ok v w :
  normalize_address v = Ok w →
  ∃ s, w = VStr (lower s) ∧ (v = VStr s ∨ (truthy v = false ∧ s = "")).
Proof.
  unfold normalize_address, py_or. destruct (truthy v) eqn:Hv.
  - destruct v; simpl; try done. intros [= <-]. eauto.
  - simpl. intros [= <-]. exists "". eauto.
Qed.

(** X1: normalizing a normalized address changes nothing, so the token
    address that [main] has already normalized may be passed to the
    function, which normalizes it again: the run is the same as with the
    raw address. *)
Theorem normalize_address_idempotent `{SortKind} (h : heap) l v w c :
  normalize_address v = Ok w →
  normalize_address w = Ok w
  ∧ run (infer_team_wallets_from_transfers l w c) h
    = run (infer_team_wallets_from_transfers l v c) h.
Proof.
  intros Hv. destruct (normalize_address_Ok v w Hv) as (s & -> & _).
  assert (normalize_address (VStr (lower s)) = Ok (VStr (lower s))) as Hw
    by (by rewrite normalize_address_str, lower_idem).
  split; [done |]. unfold infer_team_wallets_from_transfers. by rewrite Hv, Hw.
Qed.

Lemma normalize_address_idempotent_witness :
  normalize_address (VStr "0xAbC") = Ok (VStr "0xabc")
  ∧ (normalize_address (VStr "0xabc") = Ok (VStr "0xabc")
     ∧ run (infer_team_wallets_from_transfers (H := stable_kind)
              1%positive (VStr "0xabc") VNone) ∅
       = run (infer_team_wallets_from_transfers (H := stable_kind)
                1%positive (VStr "0xAbC") VNone) ∅).
Proof.
  split; [reflexivity |].
  apply (normalize_address_idempotent (H := stable_kind) ∅ 1%positive
           (VStr "0xAbC") (VStr "0xabc") VNone).
  reflexivity.
Defined.

(** X2: what [normalize_address] returns is a string that lower-casing
    leaves alone, without an upper-case letter, and empty exactly when
    the argument is falsy. *)
Theorem normalize_address_canonical v w :
  normalize_address v = Ok w →
  ∃ s, w = VStr s ∧ lower s = s
       ∧ Forall (λ c, is_upper c = false) (list_ascii_of_string s)
       ∧ (s = "" ↔ truthy v = false).
Proof.
  intros Hv. destruct (normalize_address_Ok v w Hv) as (s & -> & Hs).
  exists (lower s). split; [done |]. split; [apply lower_idem |].
  split; [apply lower_no_upper |]. rewrite lower_empty.
  destruct Hs as [-> | [Hf ->]]; [| done].
  simpl. destruct s; simpl; split; done.
Qed.

Lemma normalize_address_canonical_witness :
  normalize_address (VStr "0xAbC") = Ok (VStr "0xabc")
  ∧ ∃ s, VStr "0xabc" = VStr s ∧ lower s = s
         ∧ Forall (λ c, is_upper c = false) (list_ascii_of_string s)
         ∧ (s = "" ↔ truthy (VStr "0xAbC") = false).
Proof.
  split; [reflexivity |].
  apply (normalize_address_canonical (VStr "0xAbC") (VStr "0xabc")).
  reflexivity.
Defined.

(** X3: among [None], strings and integers, [normalize_address] raises
    exactly on the integers other than zero, and what it raises is
    [AttributeError]. *)
Theorem normalize_address_raises v e :
  normalize_address v = Raise e ↔ e = AttributeError ∧ ∃ z, v = VInt z ∧ z ≠ 0%Z.
Proof.
  unfold normalize_address, py_or. split.
  - destruct v as [| s | z]; simpl; [done | by destruct (negb _) | ].
    destruct (Z.eqb_spec z 0); simpl; [done |]. intros [= <-]. eauto.
  - intros [-> (z & -> & Hz)]. simpl.
    by destruct (Z.eqb_spec z 0).
Qed.

Lemma assoc_get_set_eq name s cols : assoc_get name (assoc_set name s cols) = Some s.
Proof.
  induction cols as [| [n s0] cols IH]; simpl.
  - by rewrite String.eqb_refl.
  - destruct (String.eqb n name) eqn:Hn; simpl; by rewrite Hn.
Qed.

Lemma assoc_get_set_ne name name' s cols :
  name ≠ name' → assoc_get name' (assoc_set name s cols) = assoc_get name' cols.
Proof.
  intros Hne. induction cols as [| [n s0] cols IH]; simpl.
  - by apply String.eqb_neq in Hne as ->.
  - destruct (String.eqb n name) eqn:Hn; simpl.
    + apply String.eqb_eq in Hn as ->. by apply String.eqb_neq in Hne as ->.
    + by rewrite IH.
Qed.

Lemma frame_getitem_setitem_eq name s df :
  frame_getitem name (frame_setitem name s df) = Ok s.
Proof. unfold frame_getitem, frame_setitem. simpl. by rewrite assoc_get_set_eq. Qed.

Lemma frame_getitem_setitem_ne name name' s df :
  name ≠ name' →
  frame_getitem name' (frame_setitem name s df) = frame_getitem name' df.
Proof.
  intros Hne. unfold frame_getitem, frame_setitem. simpl.
  by rewrite assoc_get_set_ne.
Qed.

Lemma assoc_get_Some name cols s :
  assoc_get name cols = Some s → name ∈ map fst cols.
Proof.
  induction cols as [| [n s0] cols IH]; simpl; [done |].
  destruct (String.eqb_spec n name) as [-> | Hn].
  - intros _. apply elem_of_cons. by left.
  - intros Hs. apply elem_of_cons. right. by apply IH.
Qed.

Lemma assoc_get_None name cols :
  name ∉ map fst cols → assoc_get name cols = None.
Proof.
  intros Hn. destruct (assoc_get name cols) eqn:Hg; [| done].
  by apply assoc_get_Some in Hg.
Qed.

Lemma frame_getitem_Ok name df s :
  frame_getitem name df = Ok s → name ∈ map fst (columns df).
Proof.
  unfold frame_getitem. destruct (assoc_get name (columns df)) eqn:Hg; [| done].
  intros _. by eapply assoc_get_Some.
Qed.

Lemma frame_getitem_missing name df :
  name ∉ map fst (columns df) → frame_getitem name df = Raise (KeyError name).
Proof. intros Hn. unfold frame_getitem. by rewrite assoc_get_None. Qed.

Lemma select_columns_Ok names df cs :
  select_columns names df = Ok cs →
  Forall (λ n, n ∈ map fst (columns df)) names.
Proof.
  revert cs. induction names as [| n names IH]; intros cs; simpl; [done |].
  destruct (frame_getitem n df) as [s |] eqn:Hn; simpl; [| done].
  destruct (select_columns names df) as [cs' |] eqn:Hc; simpl; [| done].
  intros _. constructor; [by eapply frame_getitem_Ok | by eapply IH].
Qed.

Lemma frame_getitem_mask_names mask df :
  map fst (columns (frame_getitem_mask mask df)) = map fst (columns df).
Proof. unfold frame_getitem_mask. simpl. by rewrite map_map. Qed.

Lemma frame_setitem_names name s df n :
  n ∈ map fst (columns (frame_setitem name s df)) →
  n = name ∨ n ∈ map fst (columns df).
Proof.
  unfold frame_setitem. simpl. induction (columns df) as [| [m s0] cols IH]; simpl.
  - intros Hn. apply elem_of_cons in Hn as [-> | Hn]; [by left |].
    by apply elem_of_nil in Hn.
  - destruct (String.eqb_spec m name) as [-> | Hm]; simpl.
    + intros Hn. apply elem_of_cons in Hn as [-> | Hn]; [by left |].
      right. apply elem_of_cons. by right.
    + intros Hn. apply elem_of_cons in Hn as [-> | Hn].
      * right. apply elem_of_cons. by left.
      * destruct (IH Hn) as [-> | Hin]; [by left |].
        right. apply elem_of_cons. by right.
Qed.

(** X4: on a frame without a [from] column the call raises
    [KeyError('from')]; and whenever the call returns, the frame had all
    of [block_signed_at], [tx_hash], [from], [to] and [value_raw]. *)
Theorem infer_requires_columns `{SortKind} (h : heap) l df t c :
  h !! l = Some df →
  ("from" ∉ map fst (columns df) → call h l t c = Raise (KeyError "from"))
  ∧ (∀ team ev name,
       call h l t c = Ok (team, ev) →
       name ∈ ["block_signed_at"; "tx_hash"; "from"; "to"; "value_raw"] →
       name ∈ map fst (columns df)).
Proof.
  intros Hl. rewrite (call_denotation h l df t c Hl). unfold infer_denotation.
  split.
  - intros Hn. by rewrite frame_getitem_missing.
  - intros team ev name Hd Hname.
    repeat match type of Hd with
           | result_bind ?r _ = Ok _ =>
               let E := fresh "E" in
               destruct r eqn:E; cbn [result_bind] in Hd; [| discriminate]
           end.
    match goal with
    | E : frame_getitem_cols _ _ = Ok _ |- _ =>
        unfold frame_getitem_cols, result_map in E;
        destruct (select_columns _ _) eqn:Hsel in E; [| discriminate];
        apply select_columns_Ok in Hsel
    end.
    rewrite frame_getitem_mask_names in Hsel.
    rewrite Forall_forall in Hsel. specialize (Hsel name Hname).
    apply frame_setitem_names in Hsel as [-> | Hsel].
    { repeat (apply elem_of_cons in Hname as [Hname | Hname]; [done |]).
      by apply elem_of_nil in Hname. }
    apply frame_setitem_names in Hsel as [-> | Hsel]; [| done].
    repeat (apply elem_of_cons in Hname as [Hname | Hname]; [done |]).
    by apply elem_of_nil in Hname.
Qed.

Lemma infer_requires_columns_witness :
  ({[ 1%positive := empty_frame ]} : heap) !! 1%positive = Some empty_frame
  ∧ (("from" ∉ map fst (columns empty_frame) →
      call (H := stable_kind) {[ 1%positive := empty_frame ]} 1%positive
           (VStr "0xt0ken") VNone = Raise (KeyError "from"))
     ∧ (∀ team ev name,
          call (H := stable_kind) {[ 1%positive := empty_frame ]} 1%positive
               (VStr "0xt0ken") VNone = Ok (team, ev) →
          name ∈ ["block_signed_at"; "tx_hash"; "from"; "to"; "value_raw"] →
          name ∈ map fst (columns empty_frame))).
Proof.
  split; [reflexivity |].
  apply (infer_requires_columns (H := stable_kind)
           {[ 1%positive := empty_frame ]} 1%positive empty_frame
           (VStr "0xt0ken") VNone).
  reflexivity.
Defined.

Lemma series_map_raises col z :
  VInt z ∈ col → z ≠ 0%Z →
  series_map normalize_address col = Raise AttributeError.
Proof.
  intros Hin Hz. induction col as [| v col IH]; [by apply elem_of_nil in Hin |].
  simpl. destruct (normalize_address v) as [w | e] eqn:Hv; simpl.
  - apply elem_of_cons in Hin as [<- | Hin].
    + assert (normalize_address (VInt z) = Raise AttributeError) as Hr
        by (apply normalize_address_raises; eauto).
      congruence.
    + by rewrite IH.
  - by apply normalize_address_raises in Hv as [-> _].
Qed.

(** X5: if a cell of the [from] column is an integer other than zero,
    the call raises [AttributeError]. *)
Theorem infer_non_string_sender `{SortKind} (h : heap) l df t c col z :
  h !! l = Some df →
  frame_getitem "from" df = Ok col →
  VInt z ∈ col → z ≠ 0%Z →
  call h l t c = Raise AttributeError.
Proof.
  intros Hl Hcol Hin Hz. rewrite (call_denotation h l df t c Hl).
  unfold infer_denotation. rewrite Hcol. cbn [result_bind].
  by rewrite (series_map_raises col z).
Qed.

Lemma infer_non_string_sender_witness :
  let df := mkDataFrame [("from", [VInt 5]); ("to", [VStr "0xw1"])] in
  ({[ 1%positive := df ]} : heap) !! 1%positive = Some df
  ∧ frame_getitem "from" df = Ok [VInt 5]
  ∧ VInt 5 ∈ [VInt 5]
  ∧ 5%Z ≠ 0%Z
  ∧ call (H := stable_kind) {[ 1%positive := df ]} 1%positive
         (VStr "0xt0ken") VNone = Raise AttributeError.
Proof.
  intros df.
  assert (({[ 1%positive := df ]} : heap) !! 1%positive = Some df) as H1
    by reflexivity.
  assert (frame_getitem "from" df = Ok [VInt 5]) as H2 by reflexivity.
  assert (VInt 5 ∈ [VInt 5]) as H3 by (apply elem_of_cons; by left).
  assert (5%Z ≠ 0%Z) as H4 by discriminate.
  split; [exact H1 |]. split; [exact H2 |].
  split; [exact H3 |]. split; [exact H4 |].
  exact (infer_non_string_sender (H := stable_kind) _ _ df
           (VStr "0xt0ken") VNone [VInt 5] 5%Z H1 H2 H3 H4).
Defined.

(** ** Members of the returned set *)

Lemma series_map_canonical col l :
  series_map normalize_address col = Ok l → Forall canonical l.
Proof.
  revert l. induction col as [| v col IH]; intros l; simpl.
  - intros [= <-]. constructor.
  - destruct (normalize_address v) as [w |] eqn:Hv; simpl; [| done].
    destruct (series_map normalize_address col) as [ws |]; simpl; [| done].
    intros [= <-]. constructor; [| by apply IH].
    destruct (normalize_address_canonical v w Hv) as (s & -> & Hs & _).
    by exists s.
Qed.

Lemma select_mask_Forall {A} (P : A → Prop) mask (l : list A) :
  Forall P l → Forall P (select_mask mask l).
Proof.
  intros Hl. revert mask. induction Hl as [| x l Hx Hl IH]; intros mask.
  - by destruct mask.
  - destruct mask as [| [] mask]; simpl; [constructor | by constructor | apply IH].
Qed.

Lemma elem_of_team_like (P : value → Prop) (s : gset value) mask col v :
  Forall P col → (∀ x, x ∈ s → P x) →
  v ∈ set_update s (tolist (dropna (select_mask mask col))) → P v.
Proof.
  intros Hcol Hs. unfold set_update, tolist, dropna.
  rewrite elem_of_union, elem_of_list_to_set, list_elem_of_filter.
  intros [Hv | [_ Hv]]; [by apply Hs |].
  pose proof (select_mask_Forall P mask col Hcol) as Hsel.
  rewrite Forall_forall in Hsel. by apply Hsel.
Qed.

(** X6: whatever the frame and the arguments, every member of a returned
    set is a string in canonical (lower-case) form, and none is the
    all-zero address. *)
Theorem team_members_canonical `{SortKind} (h : heap) l t c team ev :
  call h l t c = Ok (team, ev) →
  ∀ v, v ∈ team →
    ∃ s, v = VStr s ∧ lower s = s ∧ s ≠ zero_address.
Proof.
  intros Hcall v Hv.
  destruct (h !! l) as [df |] eqn:Hl; [| by rewrite call_unallocated in Hcall].
  rewrite (call_denotation h l df t c Hl) in Hcall.
  pose proof (infer_denotation_no_zero df t c team ev Hcall) as Hzero.
  unfold infer_denotation in Hcall.
  repeat match type of Hcall with
         | result_bind ?r _ = Ok _ =>
             let E := fresh "E" in
             destruct r eqn:E; cbn [result_bind] in Hcall; [| discriminate]
         end.
  injection Hcall as <- _.
  rewrite frame_getitem_setitem_eq in E7. injection E7 as <-.
  pose proof (series_map_canonical _ _ E2) as Hcan.
  assert (∀ x, x ∈ a5 → canonical x) as Ha5.
  { destruct (truthy a3); cbn [result_bind] in E5; injection E5 as <-.
    - intros x. by apply elem_of_team_like.
    - intros x Hx. by apply elem_of_empty in Hx. }
  unfold set_discard in Hv. apply elem_of_difference in Hv as [Hv Hne].
  apply not_elem_of_singleton in Hne.
  destruct (elem_of_team_like canonical _ _ _ _ Hcan Ha5 Hv) as (s & -> & Hs).
  exists s. split; [done |]. split; [done | congruence].
Qed.

Lemma team_members_canonical_witness :
  let rows := [sample "2024-01-01T00:00:00Z" "0xh1" (Some "0xT0KEN") (Some "0xW2")] in
  ∃ team ev,
    call (H := stable_kind) {[ 1%positive := ledger_frame rows ]} 1%positive
         (VStr "0xt0ken") VNone = Ok (team, ev)
    ∧ ∀ v, v ∈ team → ∃ s, v = VStr s ∧ lower s = s ∧ s ≠ zero_address.
Proof.
  intros rows. eexists _, _.
  assert (call (H := stable_kind) {[ 1%positive := ledger_frame rows ]} 1%positive
            (VStr "0xt0ken") VNone
          = Ok ({[ VStr "0xw2" ]}, ledger_frame rows)) as Hcall by (by vm_compute).
  split; [exact Hcall |].
  exact (team_members_canonical (H := stable_kind) _ _ _ _ _ _ Hcall).
Defined.

(** ** How the two rules and the ledger compose *)

(** X7: giving a creator address never removes a wallet: the set
    returned without a creator is included in the set returned with
    one. *)
Theorem creator_only_adds `{SortKind} (h : heap) l rows token creator :
  ∃ team0 ev0 team1 ev1,
    call (<[l := ledger_frame rows]> h) l (VStr token) VNone = Ok (team0, ev0)
    ∧ call (<[l := ledger_frame rows]> h) l (VStr token) (py_str creator)
      = Ok (team1, ev1)
    ∧ team0 ⊆ team1.
Proof.
  rewrite (call_ledger h l rows token None), (call_ledger h l rows token creator).
  cbn zeta. eexists _, _, _, _. split; [done |]. split; [done |].
  intros v. rewrite !elem_of_team_of.
  intros [Hz (r & Hr & Hv & [Hf | [Hc _]])]; [| done].
  split; [done |]. exists r. tauto.
Qed.

Lemma team_of_perm rows rows' tn cn :
  rows ≡ₚ rows' → team_of rows tn cn = team_of rows' tn cn.
Proof.
  intros Hp. apply set_eq. intros v. rewrite !elem_of_team_of.
  by setoid_rewrite Hp.
Qed.

(** X8: the order of the ledger rows does not matter for the returned
    set, and the evidence tables of two orderings hold the same rows. *)
Theorem ledger_order_irrelevant `{SortKind} (h : heap) l rows rows' token creator :
  rows ≡ₚ rows' →
  ∃ team recs recs',
    call (<[l := ledger_frame rows]> h) l (VStr token) (py_str creator)
    = Ok (team, ledger_frame recs)
    ∧ call (<[l := ledger_frame rows']> h) l (VStr token) (py_str creator)
      = Ok (team, ledger_frame recs')
    ∧ recs ≡ₚ recs'.
Proof.
  intros Hp. rewrite !call_ledger. cbn zeta.
  rewrite <- (team_of_perm rows rows' _ _ Hp).
  eexists _, _, _. split; [done |]. split; [done |].
  rewrite !sort_records_perm. unfold selected. by rewrite Hp.
Qed.

Lemma ledger_order_irrelevant_witness :
  let r1 := sample "2024-01-01T00:00:00Z" "0xh1" (Some "0xT0KEN") (Some "0xW2") in
  let r2 := sample "2024-01-01T00:05:00Z" "0xh2" (Some "0xW2") (Some "0xW3") in
  ∃ team recs recs',
    call (H := stable_kind) (<[1%positive := ledger_frame [r1; r2]]> ∅) 1%positive
         (VStr "0xt0ken") (py_str None) = Ok (team, ledger_frame recs)
    ∧ call (H := stable_kind) (<[1%positive := ledger_frame [r2; r1]]> ∅) 1%positive
           (VStr "0xt0ken") (py_str None) = Ok (team, ledger_frame recs')
    ∧ recs ≡ₚ recs'.
Proof.
  intros r1 r2.
  apply (ledger_order_irrelevant (H := stable_kind) ∅ 1%positive [r1; r2] [r2; r1]
           "0xt0ken" None).
  apply perm_swap.
Defined.

(** X9: the set returned for two ledgers put end to end is the union of
    the sets returned for each. *)
Theorem ledger_concatenation `{SortKind} (h : heap) l rows1 rows2 token creator :
  ∃ team1 ev1 team2 ev2 ev,
    call (<[l := ledger_frame rows1]> h) l (VStr token) (py_str creator)
    = Ok (team1, ev1)
    ∧ call (<[l := ledger_frame rows2]> h) l (VStr token) (py_str creator)
      = Ok (team2, ev2)
    ∧ call (<[l := ledger_frame (rows1 ++ rows2)]> h) l (VStr token) (py_str creator)
      = Ok (team1 ∪ team2, ev).
Proof.
  rewrite !call_ledger. cbn zeta. eexists _, _, _, _, _.
  split; [done |]. split; [done |]. do 2 f_equal.
  apply set_eq. intros v. rewrite elem_of_union, !elem_of_team_of. split.
  - intros [Hz (r & Hr & Hrest)].
    apply elem_of_app in Hr as [Hr | Hr]; [left | right]; eauto.
  - intros [[Hz (r & Hr & Hrest)] | [Hz (r & Hr & Hrest)]];
      (split; [done |]); exists r; (split; [apply elem_of_app; tauto | done]).
Qed.

(** ** The returned frame is a new object *)

Lemma keeps_infer_fresh `{SortKind} (h0 : heap) l t c :
  keeps h0 (infer_team_wallets_from_transfers l t c) (λ r, unused h0 r.2).
Proof.
  unfold infer_team_wallets_from_transfers.
  eapply keeps_bind; [apply keeps_df_copy |]. intros df Hdf.
  eapply keeps_bind; [apply keeps_df_getitem |]. intros col _.
  eapply keeps_bind; [apply keeps_lift |]. intros from_n _.
  eapply keeps_bind; [by apply keeps_df_setitem |]. intros _ _.
  eapply keeps_bind; [apply keeps_df_getitem |]. intros col' _.
  eapply keeps_bind; [apply keeps_lift |]. intros to_n _.
  eapply keeps_bind; [by apply keeps_df_setitem |]. intros _ _.
  eapply keeps_bind; [apply keeps_if; [apply keeps_lift | apply keeps_ret] |].
  intros creator_n _.
  eapply keeps_bind; [apply keeps_lift |]. intros token_n _.
  eapply keeps_bind.
  { apply keeps_if; [| apply keeps_ret].
    eapply keeps_bind; [apply keeps_df_getitem |]. intros fcol _.
    eapply keeps_bind; [apply keeps_df_loc |]. intros sel _. apply keeps_ret. }
  intros team _.
  eapply keeps_bind; [apply keeps_df_getitem |]. intros fcol _.
  eapply keeps_bind; [apply keeps_df_loc |]. intros sel _.
  eapply keeps_bind; [apply keeps_df_getitem |]. intros tcol _.
  eapply keeps_bind; [apply keeps_df_getitem_mask |]. intros o1 _.
  eapply keeps_bind; [apply keeps_df_copy |]. intros o2 _.
  eapply keeps_bind; [apply keeps_df_getitem_cols |]. intros o3 _.
  eapply keeps_bind; [apply keeps_df_sort_values |]. intros o4 Ho4.
  intros hc Hhc. split; [done |]. by intros a [= <-].
Qed.

(** X10: the frame a call returns is an object that did not exist before
    the call; it is never the ledger that was passed in. *)
Theorem returned_frame_is_new `{SortKind} (h : heap) l t c :
  match run (infer_team_wallets_from_transfers l t c) h with
  | (Ok (_, out), h') => h !! out = None ∧ out ≠ l ∧ is_Some (h' !! out)
  | (Raise _, _) => True
  end.
Proof.
  pose proof (keeps_infer_fresh h l t c h (reflexivity h)) as [_ Hout].
  destruct (h !! l) as [df |] eqn:Hl.
  - destruct (run_infer h l df t c Hl) as [h' Hrun].
    destruct (infer_denotation df t c) as [[team ev] | e].
    + destruct Hrun as (lo & Hrun & Hlo). rewrite Hrun in *.
      specialize (Hout _ eq_refl). unfold unused in Hout. simpl in Hout.
      split; [done |]. split; [congruence | by rewrite Hlo].
    + by rewrite Hrun.
  - by rewrite infer_unallocated.
Qed.

(** * Properties of utils.py, [read_team_list] *)

Lemma lstrip_head s :
  match lstrip s with
  | EmptyString => True
  | String c _ => py_isspace c = false
  end.
Proof.
  induction s as [| c s IH]; simpl; [done |].
  destruct (py_isspace c) eqn:Hc; [done | by simpl].
Qed.

Lemma lstrip_fixed s :
  match s with EmptyString => True | String c _ => py_isspace c = false end →
  lstrip s = s.
Proof. destruct s as [| c s]; simpl; [done |]. by intros ->. Qed.

Lemma rstrip_head s :
  match s with EmptyString => True | String c _ => py_isspace c = false end →
  match rstrip s with
  | EmptyString => s = EmptyString
  | String c _ => py_isspace c = false
  end.
Proof.
  destruct s as [| c s]; simpl; [done |]. intros Hc.
  destruct (rstrip s); by rewrite ?Hc.
Qed.

Lemma rstrip_idem s : rstrip (rstrip s) = rstrip s.
Proof.
  induction s as [| c s IH]; simpl; [done |].
  destruct (rstrip s) as [| c' r] eqn:Hr.
  - destruct (py_isspace c) eqn:Hc; simpl; [done | by rewrite Hc].
  - simpl in *. by rewrite IH.
Qed.

Lemma strip_idem s : strip (strip s) = strip s.
Proof.
  unfold strip. rewrite (lstrip_fixed (rstrip (lstrip s))).
  - apply rstrip_idem.
  - pose proof (rstrip_head (lstrip s) (lstrip_head s)) as Hh.
    by destruct (rstrip (lstrip s)).
Qed.

(** X11: [read_team_list] returns the stripped lines, in their order,
    that are neither empty nor start with [#] once stripped; every entry
    is non-empty, has no blank at either end and is not a comment. *)
Theorem read_team_list_entries lines :
  read_team_list lines = filter is_entry (map strip lines)
  ∧ Forall is_entry (read_team_list lines).
Proof.
  assert (read_team_list lines = filter is_entry (map strip lines)) as Heq.
  { induction lines as [| line lines IH]; [done |].
    cbn [read_team_list map]. rewrite filter_cons, <- IH.
    destruct (String.eqb_spec (strip line) "") as [He | He]; simpl.
    - rewrite decide_False; [done |]. intros [? _]. done.
    - destruct (String.prefix "#" (strip line)) eqn:Hp.
      + rewrite decide_False; [done |]. intros (_ & _ & ?). congruence.
      + rewrite decide_True; [done |]. split; [done |]. split; [apply strip_idem | done]. }
  split; [done |]. rewrite Heq. apply Forall_forall. intros s Hs.
  by apply list_elem_of_filter in Hs as [? _].
Qed.

Example strip_examples :
  strip ("  0xAbC " +:+ newline) = "0xAbC"
  ∧ strip (" # core team" +:+ newline) = "# core team"
  ∧ strip "0xabc # founder" = "0xabc # founder"
  ∧ strip newline = "".
Proof. by vm_compute. Qed.

Lemma rstrip_app_space s w : rstrip w = "" → rstrip (s +:+ w) = rstrip s.
Proof.
  intros Hw. induction s as [| c s IH]; simpl; [done |]. by rewrite IH.
Qed.

Lemma is_entry_head s :
  is_entry s → ∃ c s', s = String c s' ∧ py_isspace c = false.
Proof.
  intros (Hne & Hs & _). destruct s as [| c s']; [done |].
  exists c, s'. split; [done |].
  pose proof (rstrip_head (lstrip (String c s')) (lstrip_head _)) as Hh.
  unfold strip in Hs. rewrite Hs in Hh. done.
Qed.

Lemma is_entry_line s : is_entry s → strip (s +:+ newline) = s.
Proof.
  intros Hs. destruct (is_entry_head s Hs) as (c & s' & -> & Hc).
  destruct Hs as (_ & Hs & _). unfold strip in *.
  simpl in *. rewrite Hc in *. change (String c (s' +:+ newline)) with (String c s' +:+ newline).
  by rewrite rstrip_app_space.
Qed.

(** X12: writing the entries one per line and reading them again gives
    the same entries. *)
Theorem read_team_list_round_trip lines :
  read_team_list (map (λ a, a +:+ newline) (read_team_list lines))
  = read_team_list lines.
Proof.
  pose proof (proj2 (read_team_list_entries lines)) as Hall.
  induction Hall as [| a l Ha _ IH]; [done |].
  cbn [map read_team_list]. rewrite (is_entry_line a Ha), IH.
  destruct Ha as (Hne & _ & Hp). rewrite Hp.
  by apply String.eqb_neq in Hne as ->.
Qed.

(** * Properties of the fragments of main.py *)




Lemma frame_empty_ledger r rows : frame_empty (ledger_frame (r :: rows)) = false.
Proof. done. Qed.

(** X14: the guarded call of [main] never raises on a ledger built by
    providers.py: without a ledger, or with the empty one, it leaves
    the empty set and the empty frame; otherwise it has the outcome of
    [infer_team_wallets_from_transfers]. *)
Theorem early_transfers_total `{SortKind} (h : heap) l rows token creator :
  observed (run (early_transfers None (VStr token) (py_str creator)) h)
  = Ok (∅, empty_frame)
  ∧ ∃ team ev,
      observed (run (early_transfers (Some l) (VStr token) (py_str creator))
                    (<[l := pd_DataFrame rows]> h))
      = Ok (team, ev)
      ∧ (rows = [] → team = ∅ ∧ ev = empty_frame)
      ∧ (rows ≠ [] →
         call (<[l := pd_DataFrame rows]> h) l (VStr token) (py_str creator)
         = Ok (team, ev)).
Proof.
  split.
  { unfold early_transfers. rewrite run_bind, run_alloc, run_ret. simpl.
    by rewrite lookup_insert_eq. }
  unfold early_transfers. rewrite run_bind, run_alloc.
  set (h0 := <[l := pd_DataFrame rows]> h). set (d := fresh (dom h0)).
  assert (h0 !! d = None) as Hd by (apply not_elem_of_dom, is_fresh).
  assert (h0 !! l = Some (pd_DataFrame rows)) as Hl by apply lookup_insert_eq.
  assert (d ≠ l) as Hdl by congruence.
  assert (<[d := empty_frame]> h0 !! l = Some (pd_DataFrame rows)) as Hl'
    by (by rewrite lookup_insert_ne).
  rewrite run_bind, (run_deref l _ _ Hl').
  destruct rows as [| r rows].
  - cbn [pd_DataFrame] in *. change (frame_empty empty_frame) with true.
    cbn [negb]. rewrite run_ret. cbn [observed]. rewrite lookup_insert_eq.
    eexists _, _. split; [done |]. split; [done |]. by intros [].
  - cbn [pd_DataFrame] in *. rewrite frame_empty_ledger. cbn [negb].
    rewrite <- call_observed.
    rewrite (call_denotation _ l (ledger_frame (r :: rows))) by done.
    rewrite (call_denotation h0 l (ledger_frame (r :: rows))) by done.
    rewrite infer_denotation_ledger. cbn zeta.
    eexists _, _. split; [done |]. split; [done | by intros _].
Qed.

Lemma frame_getitem_mask_getitem name mask df :
  frame_getitem name (frame_getitem_mask mask df)
  = result_map (select_mask mask) (frame_getitem name df).
Proof.
  unfold frame_getitem, frame_getitem_mask. simpl.
  induction (columns df) as [| [n s] cols IH]; simpl; [done |].
  destruct (String.eqb n name); [done | apply IH].
Qed.

Lemma first_occurrences seen (s : Series) :
  let kept := select_mask (map negb (duplicated_after seen s)) s in
  NoDup kept
  ∧ (∀ v, v ∈ kept ↔ v ∈ s ∧ v ∉ seen)
  ∧ sublist kept s.
Proof.
  revert seen. induction s as [| v s IH]; intros seen; cbn zeta.
  - simpl. split; [constructor |]. split; [| done].
    intros v. split; [by intros ?%elem_of_nil | by intros [?%elem_of_nil _]].
  - cbn [duplicated_after map select_mask].
    destruct (IH (v :: seen)) as (Hnd & Hmem & Hsub).
    case_bool_decide as Hv; cbn [negb].
    + split; [done |]. split; [| by apply sublist_cons].
      intros w. rewrite Hmem. split.
      * intros [Hw Hn]. split; [apply elem_of_cons; by right |].
        intros Hs. apply Hn, elem_of_cons. by right.
      * intros [Hw Hn]. apply elem_of_cons in Hw as [-> | Hw]; [done |].
        split; [done |]. intros [-> | Hs]%elem_of_cons; done.
    + split; [| split; [| by apply sublist_skip]].
      * constructor; [| done]. rewrite Hmem. intros [_ Hn].
        apply Hn, elem_of_cons. by left.
      * intros w. rewrite elem_of_cons, Hmem. split.
        -- intros [-> | [Hw Hn]].
           ++ split; [apply elem_of_cons; by left | done].
           ++ split; [apply elem_of_cons; by right |].
              intros Hs. apply Hn, elem_of_cons. by right.
        -- intros [Hw Hn]. destruct (decide (w = v)) as [-> | Hne]; [by left |].
           right. apply elem_of_cons in Hw as [-> | Hw]; [done |].
           split; [done |]. intros [-> | Hs]%elem_of_cons; done.
Qed.

Lemma series_map_normalize_opts (addrs : list (option string)) :
  series_map normalize_address (map py_str addrs)
  = Ok (map (λ a, VStr (norm a)) addrs).
Proof.
  induction addrs as [| a addrs IH]; simpl; [done |].
  by rewrite normalize_address_py_str, IH.
Qed.

(** X15: after lines 112 and 113 of [main] the holders frame has one row
    per case-insensitive address, the first of each kept in order; and
    the frame the provider returned has itself gained the [address_n]
    column. *)
Theorem holders_deduplicated (h : heap) l df addrs :
  h !! l = Some df →
  frame_getitem "address" df = Ok (map py_str addrs) →
  ∃ out h' df' kept,
    run (normalize_holders l) h = (Ok out, h')
    ∧ h' !! l = Some (frame_setitem "address_n" (map (λ a, VStr (norm a)) addrs) df)
    ∧ h' !! out = Some df'
    ∧ frame_getitem "address_n" df' = Ok kept
    ∧ NoDup kept
    ∧ (∀ v, v ∈ kept ↔ ∃ a, a ∈ addrs ∧ v = VStr (norm a))
    ∧ sublist kept (map (λ a, VStr (norm a)) addrs).
Proof.
  intros Hl Haddr. unfold normalize_holders.
  rewrite run_bind, (run_df_getitem h l df Hl), Haddr.
  rewrite run_bind, run_lift, series_map_normalize_opts.
  set (an := map (λ a, VStr (norm a)) addrs).
  rewrite run_bind, (run_df_setitem h l df Hl).
  set (df1 := frame_setitem "address_n" an df). set (h1 := <[l := df1]> h).
  assert (h1 !! l = Some df1) as Hl1 by apply lookup_insert_eq.
  assert (frame_getitem "address_n" df1 = Ok an) as Han
    by apply frame_getitem_setitem_eq.
  unfold df_drop_duplicates. rewrite run_bind, (run_deref l df1 h1 Hl1).
  rewrite run_bind, run_lift. unfold frame_drop_duplicates.
  rewrite Han. cbn [result_map result_bind]. rewrite run_alloc.
  set (out := fresh (dom h1)).
  assert (h1 !! out = None) as Hout by (apply not_elem_of_dom, is_fresh).
  assert (out ≠ l) as Hne by congruence.
  destruct (first_occurrences [] an) as (Hnd & Hmem & Hsub). cbn zeta in *.
  eexists _, _, _, _. split; [done |].
  split; [by rewrite lookup_insert_ne |].
  split; [apply lookup_insert_eq |].
  split.
  { by rewrite frame_getitem_mask_getitem, Han. }
  split; [done |]. split; [| done].
  intros v. rewrite Hmem. unfold an. rewrite list_elem_of_fmap.
  split.
  - intros [(a & -> & Ha) _]. eauto.
  - intros (a & Ha & ->). split; [eauto |]. by intros ?%elem_of_nil.
Qed.

Lemma holders_deduplicated_witness :
  let df := mkDataFrame [("address", [VStr "0xAbC"; VStr "0xabc"; VNone]);
                         ("balance_raw", [VInt 5; VInt 7; VInt 1])] in
  let addrs := [Some "0xAbC"; Some "0xabc"; None] in
  ({[ 1%positive := df ]} : heap) !! 1%positive = Some df
  ∧ frame_getitem "address" df = Ok (map py_str addrs)
  ∧ ∃ out h' df' kept,
      run (normalize_holders 1%positive) {[ 1%positive := df ]} = (Ok out, h')
      ∧ h' !! 1%positive
        = Some (frame_setitem "address_n" (map (λ a, VStr (norm a)) addrs) df)
      ∧ h' !! out = Some df'
      ∧ frame_getitem "address_n" df' = Ok kept
      ∧ NoDup kept
      ∧ (∀ v, v ∈ kept ↔ ∃ a, a ∈ addrs ∧ v = VStr (norm a))
      ∧ sublist kept (map (λ a, VStr (norm a)) addrs).
Proof.
  intros df addrs.
  assert (({[ 1%positive := df ]} : heap) !! 1%positive = Some df) as H1
    by reflexivity.
  assert (frame_getitem "address" df = Ok (map py_str addrs)) as H2
    by reflexivity.
  split; [exact H1 |]. split; [exact H2 |].
  exact (holders_deduplicated _ _ df addrs H1 H2).
Defined.

(** * Properties of the JSON plumbing *)

Module JsonFacts.
Import Json.

Lemma safe_get_descend obj path dflt :
  safe_get obj path dflt = default dflt (descend obj path).
Proof.
  revert obj. induction path as [| p rest IH]; intros obj; simpl; [done |].
  destruct (dict_step obj p); [apply IH | done].
Qed.

Lemma descend_app obj p q :
  descend obj (p ++ q) = descend obj p ≫= λ v, descend v q.
Proof.
  revert obj. induction p as [| k p IH]; intros obj; simpl; [done |].
  destruct (dict_step obj k); [apply IH | done].
Qed.

(** X16: [safe_get] along a path put together from two parts is
    [safe_get] along the second part from where the first part leads,
    and the default when the first part does not lead anywhere. *)
Theorem safe_get_path_split obj p q dflt :
  safe_get obj (p ++ q) dflt
  = match descend obj p with
    | Some v => safe_get v q dflt
    | None => dflt
    end.
Proof.
  rewrite !safe_get_descend, descend_app.
  destruct (descend obj p) as [v |]; simpl; [| done].
  by rewrite safe_get_descend.
Qed.

(** X17: [safe_get] only steps into dicts: an integer in the path, or an
    object that is not a dict (a list, say), gives the default. *)
Theorem safe_get_only_descends_dicts obj p rest dflt :
  (∀ i, p = KInt i → safe_get obj (p :: rest) dflt = dflt)
  ∧ ((∀ d, obj ≠ PDict d) → safe_get obj (p :: rest) dflt = dflt).
Proof.
  split.
  - intros i ->. simpl. by destruct obj.
  - intros Hobj. simpl. destruct obj, p; try done. by destruct (Hobj d).
Qed.

(** X18: [normalize_hex] returns [None] or an integer; it raises only
    [ValueError], and only on a string that starts with [0x] and that
    [int(v, 16)] rejects. *)
Theorem normalize_hex_outcome `{Builtins} v :
  match normalize_hex v with
  | Returns r => r = PNone ∨ ∃ z, r = PInt z
  | Raises e =>
      e = ValueError
      ∧ ∃ s, v = PStr s ∧ String.prefix "0x" s = true ∧ int_of_str16 s = None
  end.
Proof.
  unfold normalize_hex, int_or_none.
  destruct v as [| b | z | f | s | l | d]; simpl; try (by left); try (right; by eauto).
  - destruct (int_of_float f); eauto.
  - destruct (String.prefix "0x" s) eqn:Hp.
    + destruct (int_of_str16 s) eqn:Hs; eauto 6.
    + simpl. destruct (int_of_str s); eauto.
Qed.

(** X19: whatever the response, the Covalent branch of
    [fetch_total_supply] raises nothing and returns nothing: the path
    [[0, "contract_metadata"]] never leads into the list of items, so
    the metadata are always the empty default. *)
Theorem covalent_supply_never_returns `{Builtins} data :
  covalent_supply data = Returns None.
Proof.
  unfold covalent_supply. destruct (truthy (safe_get data _ _)); [| done].
  assert (∀ items, safe_get items [KInt 0; KStr "contract_metadata"] (PDict ∅)
                   = PDict ∅) as -> by (by intros []).
  replace (truthy (PDict ∅)) with false by (cbn; by rewrite map_size_empty).
  unfold py_get. by rewrite !lookup_empty.
Qed.

Lemma for_each_params `{Builtins} (prms : list (gmap string pyobj)) fr to val :
  for_each param_step (fr, to, val) (map PDict prms)
  = Returns (last_value id "from" prms fr,
             last_value id "to" prms to,
             last_value int_or_none "value" prms val).
Proof.
  revert fr to val. induction prms as [| p prms IH]; intros fr to val; [done |].
  cbn [map for_each last_value]. unfold param_step at 1. cbn [py_get and_then].
  destruct (default PNone (p !! "name")) as [| | | | n | |]; cbn [eq_str];
    try apply IH.
  destruct (String.eqb_spec n "from") as [-> | Hf]; [apply IH |].
  destruct (String.eqb_spec n "to") as [-> | Ht]; [apply IH |].
  destruct (String.eqb_spec n "value") as [-> | Hv]; apply IH.
Qed.

(** X20: for an event whose decoded parameters are a list of dicts, the
    row has the event's timestamp and hash, the value of the last
    parameter named [from], of the last named [to], and the integer
    read from the last named [value] ([None] when there is none or it
    is not an integer). *)
Theorem decode_event_params `{Builtins} (d dd : gmap string pyobj) prms :
  d !! "decoded" = Some (PDict dd) →
  dd !! "params" = Some (PList (map PDict prms)) →
  decode_event (PDict d)
  = Returns (mkRow (default PNone (d !! "block_signed_at"))
                   (default PNone (d !! "tx_hash"))
                   (last_value id "from" prms PNone)
                   (last_value id "to" prms PNone)
                   (last_value int_or_none "value" prms PNone)).
Proof.
  intros Hd Hp. unfold decode_event. cbn [py_get and_then].
  rewrite Hd. simpl. rewrite Hp. simpl.
  by rewrite for_each_params.
Qed.

Lemma decode_event_params_witness :
  let prms : list (gmap string pyobj) :=
    [ {[ "name" := PStr "from"; "value" := PStr "0xA" ]};
      {[ "name" := PStr "to"; "value" := PStr "0xB" ]};
      {[ "name" := PStr "value"; "value" := PInt 1000 ]} ] in
  let dd : gmap string pyobj := {[ "params" := PList (map PDict prms) ]} in
  let d : gmap string pyobj :=
    {[ "decoded" := PDict dd; "tx_hash" := PStr "0xh1" ]} in
  d !! "decoded" = Some (PDict dd)
  ∧ dd !! "params" = Some (PList (map PDict prms))
  ∧ decode_event (H := bare_builtins) (PDict d)
    = Returns (mkRow (default PNone (d !! "block_signed_at"))
                     (default PNone (d !! "tx_hash"))
                     (last_value id "from" prms PNone)
                     (last_value id "to" prms PNone)
                     (last_value (int_or_none (H := bare_builtins)) "value" prms PNone)).
Proof.
  intros prms dd d.
  assert (d !! "decoded" = Some (PDict dd)) as H1 by (by vm_compute).
  assert (dd !! "params" = Some (PList (map PDict prms))) as H2 by (by vm_compute).
  split; [exact H1 |]. split; [exact H2 |].
  exact (decode_event_params (H := bare_builtins) d dd prms H1 H2).
Defined.

(** X21: an event without a [decoded] key gives a row with null [from],
    [to] and [value_raw]; an event whose [decoded] is null raises
    [AttributeError], and one whose [params] is null raises
    [TypeError]: the defaults of [get] stand in for a missing key only. *)
Theorem decode_event_missing_or_null `{Builtins} (d dd : gmap string pyobj) :
  (d !! "decoded" = None →
   decode_event (PDict d)
   = Returns (mkRow (default PNone (d !! "block_signed_at"))
                    (default PNone (d !! "tx_hash")) PNone PNone PNone))
  ∧ (d !! "decoded" = Some PNone →
     decode_event (PDict d) = Raises AttributeError)
  ∧ (d !! "decoded" = Some (PDict dd) → dd !! "params" = Some PNone →
     decode_event (PDict d) = Raises TypeError).
Proof.
  unfold decode_event. cbn [py_get and_then]. split; [| split].
  - intros ->. cbn. by rewrite lookup_empty.
  - by intros ->.
  - intros -> Hp. simpl. by rewrite Hp.
Qed.

End JsonFacts.
